(** * Container packing engine: shallow embedding and verified properties

    Source: [utils/packingAlgorithm.ts] (collision test, magnetic snapping,
    staging shelf, free-space packing trial, multi-start orchestrator) and
    [types.ts] (records).

    Numbers.  Every length of the program is a JavaScript [number] holding
    millimetres; the manifest, the container presets and the drag grid
    (multiples of 5) are integers, on which double arithmetic is exact.  They
    are modelled as [Z].  The only non-integer arithmetic of the file is the
    [Math.sin] perturbation inside the comparator of the RANDOM_WEIGHTED
    sort, modelled over [Q] with [Math.sin] as a parameter.

    Sorting.  [runPackingTrial] and [autoPack] take the sort of the item
    list as a parameter [sortItems]; the theorems ask of it only that it
    returns a rearrangement of its argument, which holds of
    [Array.prototype.sort] whatever the comparator, and of the stable
    insertion sort [sortByStrategy] defined here. *)

From Stdlib Require Import ZArith QArith Qabs List Bool String Ascii Lia Permutation Sorted.
From Stdlib Require Import DecimalString DecimalNat.
Import ListNotations.
Open Scope Z_scope.

(** ** Records of [types.ts] *)

Record Dimensions : Type := mkDimensions {
  length : Z;  (* x axis *)
  width  : Z;  (* z axis *)
  height : Z   (* y axis *)
}.

Record SubItem : Type := mkSubItem {
  subId : string;
  subItemDrawingNo : string;
  subItemSubDrawingNo : string;
  subDimensions : Dimensions;
  relativePosition : Z * Z * Z;
  subColor : string;
  subWeight : Z
}.

Record CargoItem : Type := mkCargoItem {
  id : string;
  drawingNo : string;
  subDrawingNo : option string;
  dimensions : Dimensions;
  position : Z * Z * Z;          (* [x, y, z], minimum corner *)
  color : string;
  weight : Z;
  selected : bool;
  isValid : bool;
  subItems : option (list SubItem);
  isGroup : option bool
}.

(** [position[0]], [position[1]], [position[2]]. *)
Definition pos0 (p : Z * Z * Z) : Z := fst (fst p).
Definition pos1 (p : Z * Z * Z) : Z := snd (fst p).
Definition pos2 (p : Z * Z * Z) : Z := snd p.

(** [{ ...item, position: pos, isValid: v }] *)
Definition withPosition (item : CargoItem) (pos : Z * Z * Z) (v : bool) : CargoItem :=
  {| id := id item; drawingNo := drawingNo item; subDrawingNo := subDrawingNo item;
     dimensions := dimensions item; position := pos; color := color item;
     weight := weight item; selected := selected item; isValid := v;
     subItems := subItems item; isGroup := isGroup item |}.

(** [{ ...item, dimensions: d, position: pos, isValid: true }] *)
Definition withPlacement (item : CargoItem) (d : Dimensions) (pos : Z * Z * Z) : CargoItem :=
  {| id := id item; drawingNo := drawingNo item; subDrawingNo := subDrawingNo item;
     dimensions := d; position := pos; color := color item;
     weight := weight item; selected := selected item; isValid := true;
     subItems := subItems item; isGroup := isGroup item |}.

(** ** The [Box] of the packing algorithm *)

Record Box : Type := mkBox {
  x : Z; y : Z; z : Z;   (* origin *)
  l : Z; h : Z; w : Z    (* extents along x, y, z *)
}.

(** The axis-aligned bounding box of an item: corner and current footprint. *)
Definition itemBox (item : CargoItem) : Box :=
  {| x := pos0 (position item); y := pos1 (position item); z := pos2 (position item);
     l := length (dimensions item); h := height (dimensions item);
     w := width (dimensions item) |}.

(** ** Geometry helpers: [boxIntersect], [contains] *)

Definition boxIntersect (a b : Box) : bool :=
  (x a <? x b + l b) && (x a + l a >? x b) &&
  (y a <? y b + h b) && (y a + h a >? y b) &&
  (z a <? z b + w b) && (z a + w a >? z b).

Definition contains (outer inner : Box) : bool :=
  (x outer <=? x inner) && (y outer <=? y inner) && (z outer <=? z inner) &&
  (x outer + l outer >=? x inner + l inner) &&
  (y outer + h outer >=? y inner + h inner) &&
  (z outer + w outer >=? z inner + w inner).

(** ** [checkCollisionWithCoords] and [checkCollision] *)

Definition epsilon : Z := 1.

(** The [overlap] expression of the loop body, for target box [t] and the
    box of [other]. *)
Definition overlap (t o : Box) : bool :=
  (x t <? (x o + l o) - epsilon) && (x t + l t >? x o + epsilon) &&
  (y t <? (y o + h o) - epsilon) && (y t + h t >? y o + epsilon) &&
  (z t <? (z o + w o) - epsilon) && (z t + w t >? z o + epsilon).

(** The [for (const other of others)] loop with its [continue] and its early
    [return true]. *)
Fixpoint collisionLoop (target : Box) (targetId : string) (others : list CargoItem) : bool :=
  match others with
  | [] => false
  | other :: rest =>
      if String.eqb (id other) targetId then collisionLoop target targetId rest
      else if overlap target (itemBox other) then true
      else collisionLoop target targetId rest
  end.

Definition checkCollisionWithCoords (target : Box) (targetId : string)
    (others : list CargoItem) (container : Dimensions) : bool :=
  if (x target <? 0) || (y target <? 0) || (z target <? 0) then true
  else collisionLoop target targetId others.

Definition checkCollision (item : CargoItem) (others : list CargoItem)
    (container : Dimensions) : bool :=
  checkCollisionWithCoords (itemBox item) (id item) others container.

(** ** [getSnappingPosition] *)

(** One iteration of the loop over [others]: the ten conditional assignments,
    each reading the coordinate as the previous ones left it. *)
Definition snapStep (dims : Dimensions) (selfId : string) (threshold : Z)
    (acc : Z * Z * Z) (other : CargoItem) : Z * Z * Z :=
  if String.eqb (id other) selfId then acc
  else
    let ox := pos0 (position other) in
    let oy := pos1 (position other) in
    let oz := pos2 (position other) in
    let ol := length (dimensions other) in
    let oh := height (dimensions other) in
    let ow := width (dimensions other) in
    let newX := pos0 acc in
    let newY := pos1 acc in
    let newZ := pos2 acc in
    let newX := if Z.abs (newX - (ox + ol)) <? threshold then ox + ol else newX in
    let newX := if Z.abs ((newX + length dims) - ox) <? threshold
                then ox - length dims else newX in
    let newX := if Z.abs (newX - ox) <? threshold then ox else newX in
    let newX := if Z.abs ((newX + length dims) - (ox + ol)) <? threshold
                then ox + ol - length dims else newX in
    let newY := if Z.abs (newY - (oy + oh)) <? threshold then oy + oh else newY in
    let newY := if Z.abs ((newY + height dims) - oy) <? threshold
                then oy - height dims else newY in
    let newZ := if Z.abs (newZ - (oz + ow)) <? threshold then oz + ow else newZ in
    let newZ := if Z.abs ((newZ + width dims) - oz) <? threshold
                then oz - width dims else newZ in
    let newZ := if Z.abs (newZ - oz) <? threshold then oz else newZ in
    let newZ := if Z.abs ((newZ + width dims) - (oz + ow)) <? threshold
                then oz + ow - width dims else newZ in
    (newX, newY, newZ).

Definition getSnappingPosition (currentPos : Z * Z * Z) (dims : Dimensions)
    (others : list CargoItem) (selfId : string) (threshold : Z) : Z * Z * Z :=
  let newX := pos0 currentPos in
  let newY := pos1 currentPos in
  let newZ := pos2 currentPos in
  let newX := if Z.abs newX <? threshold then 0 else newX in
  let newY := if Z.abs newY <? threshold then 0 else newY in
  let newZ := if Z.abs newZ <? threshold then 0 else newZ in
  fold_left (snapStep dims selfId threshold) others (newX, newY, newZ).

(** ** [arrangeStaging] *)

Definition spacing : Z := 100.
Definition stagingWidthLimit : Z := 15000.
Definition stagingZStart (container : Dimensions) : Z := width container + 1500.

(** The closure of [items.map]: the three mutable locals [currentX],
    [currentZ], [maxZInRow] are threaded through the traversal. *)
Fixpoint stagingLoop (items : list CargoItem) (currentX currentZ maxZInRow : Z)
    : list CargoItem :=
  match items with
  | [] => []
  | item :: rest =>
      let wrap := currentX + length (dimensions item) >? stagingWidthLimit in
      let currentX := if wrap then 0 else currentX in
      let currentZ := if wrap then currentZ + (maxZInRow + spacing) else currentZ in
      let maxZInRow := if wrap then 0 else maxZInRow in
      withPosition item (currentX, 0, currentZ) true
        :: stagingLoop rest (currentX + (length (dimensions item) + spacing)) currentZ
             (Z.max maxZInRow (width (dimensions item)))
  end.

Definition arrangeStaging (items : list CargoItem) (container : Dimensions)
    : list CargoItem :=
  stagingLoop items 0 (stagingZStart container) 0.

(** ** Sorting

    [Array.prototype.sort] is stable; on a comparator that is a total
    preorder its result is the one of stable insertion, [e] going before
    the first [s] for which the comparator is not positive. *)

Fixpoint insertSorted {A : Type} (notAfter : A -> A -> bool) (e : A) (sorted : list A)
    : list A :=
  match sorted with
  | [] => [e]
  | s :: rest => if notAfter e s then e :: s :: rest else s :: insertSorted notAfter e rest
  end.

Definition stableSort {A : Type} (notAfter : A -> A -> bool) (xs : list A) : list A :=
  fold_right (insertSorted notAfter) [] xs.

Inductive SortStrategy : Type := VOLUME | FOOTPRINT | MAX_DIM | RANDOM_WEIGHTED.

Definition volume (d : Dimensions) : Z := length d * width d * height d.

(** The comparator of [runPackingTrial].  Its value is a rational: the
    RANDOM_WEIGHTED branch scales the volumes by [1 + Math.sin(id.length +
    randomSeed) * 0.2], [Math.sin] being the parameter [mathSin]. *)
Definition compareItems (mathSin : Z -> Q) (strategy : SortStrategy) (randomSeed : Z)
    (a b : CargoItem) : Q :=
  let volA := volume (dimensions a) in
  let volB := volume (dimensions b) in
  let areaA := length (dimensions a) * width (dimensions a) in
  let areaB := length (dimensions b) * width (dimensions b) in
  let maxDimA := Z.max (Z.max (length (dimensions a)) (width (dimensions a)))
                       (height (dimensions a)) in
  let maxDimB := Z.max (Z.max (length (dimensions b)) (width (dimensions b)))
                       (height (dimensions b)) in
  let score :=
    match strategy with
    | VOLUME => inject_Z (volB - volA)
    | FOOTPRINT =>
        if negb (areaA =? areaB) then inject_Z (areaB - areaA) else inject_Z (volB - volA)
    | MAX_DIM =>
        if negb (maxDimA =? maxDimB) then inject_Z (maxDimB - maxDimA)
        else inject_Z (volB - volA)
    | RANDOM_WEIGHTED =>
        let noiseA :=
          Qmult (mathSin (Z.of_nat (String.length (id a)) + randomSeed)) 0.2%Q in
        let noiseB :=
          Qmult (mathSin (Z.of_nat (String.length (id b)) + randomSeed)) 0.2%Q in
        Qminus (Qmult (inject_Z volB) (Qplus 1 noiseB))
               (Qmult (inject_Z volA) (Qplus 1 noiseA))
    end in
  if negb (Qle_bool 0.1%Q (Qabs score))
  then inject_Z (height (dimensions b) - height (dimensions a))
  else score.

(** [[...items].sort(comparator)] as stable insertion. *)
Definition sortByStrategy (mathSin : Z -> Q) (strategy : SortStrategy) (randomSeed : Z)
    (items : list CargoItem) : list CargoItem :=
  stableSort (fun a b => Qle_bool (compareItems mathSin strategy randomSeed a b) 0%Q) items.

(** ** Placement scorer: the inner loop of [runPackingTrial] *)

Record Best : Type := mkBest {
  bestSpaceIndex : Z;        (* -1 while nothing fits *)
  bestRotation : bool;       (* false = as given, true = length and width swapped *)
  bestScore : option Z       (* None is Infinity *)
}.

Definition initBest : Best := mkBest (-1) false None.

Definition fitsUnrotated (item : CargoItem) (space : Box) : bool :=
  (length (dimensions item) <=? l space) &&
  (height (dimensions item) <=? h space) &&
  (width (dimensions item) <=? w space).

Definition fitsRotated (item : CargoItem) (space : Box) : bool :=
  (width (dimensions item) <=? l space) &&
  (height (dimensions item) <=? h space) &&
  (length (dimensions item) <=? w space).

Definition spaceScore (space : Box) : Z :=
  (y space * 1000000) + (z space * 1000) + x space.

(** [score < bestScore] *)
Definition scoreBelow (score : Z) (best : option Z) : bool :=
  match best with
  | None => true
  | Some b => score <? b
  end.

(** Body of [for (let i = 0; i < freeSpaces.length; i++)]. *)
Definition considerSpace (item : CargoItem) (i : nat) (space : Box) (best : Best) : Best :=
  let best :=
    if fitsUnrotated item space then
      if scoreBelow (spaceScore space) (bestScore best)
      then mkBest (Z.of_nat i) false (Some (spaceScore space))
      else best
    else best in
  if negb (length (dimensions item) =? width (dimensions item)) then
    if fitsRotated item space then
      if scoreBelow (spaceScore space) (bestScore best)
      then mkBest (Z.of_nat i) true (Some (spaceScore space))
      else best
    else best
  else best.

Fixpoint scanSpaces (item : CargoItem) (spaces : list Box) (i : nat) (best : Best) : Best :=
  match spaces with
  | [] => best
  | space :: rest => scanSpaces item rest (S i) (considerSpace item i space best)
  end.

(** ** Free-space manager: splitting and [cleanupSpaces] *)

(** The five conditional pushes for one free space [fs] that intersects
    [placedBox], in source order: right, left, top, front, back. *)
Definition splitFragments (fs placedBox : Box) : list Box :=
  (if x placedBox + l placedBox <? x fs + l fs
   then [ {| x := Z.max (x fs) (x placedBox + l placedBox); y := y fs; z := z fs;
             l := (x fs + l fs) - Z.max (x fs) (x placedBox + l placedBox);
             h := h fs; w := w fs |} ]
   else []) ++
  (if x placedBox >? x fs
   then [ {| x := x fs; y := y fs; z := z fs;
             l := x placedBox - x fs; h := h fs; w := w fs |} ]
   else []) ++
  (if y placedBox + h placedBox <? y fs + h fs
   then [ {| x := x fs; y := Z.max (y fs) (y placedBox + h placedBox); z := z fs;
             l := l fs;
             h := (y fs + h fs) - Z.max (y fs) (y placedBox + h placedBox);
             w := w fs |} ]
   else []) ++
  (if z placedBox + w placedBox <? z fs + w fs
   then [ {| x := x fs; y := y fs; z := Z.max (z fs) (z placedBox + w placedBox);
             l := l fs; h := h fs;
             w := (z fs + w fs) - Z.max (z fs) (z placedBox + w placedBox) |} ]
   else []) ++
  (if z placedBox >? z fs
   then [ {| x := x fs; y := y fs; z := z fs;
             l := l fs; h := h fs; w := z placedBox - z fs |} ]
   else []).

(** Body of [for (const fs of freeSpaces)]. *)
Definition splitSpace (placedBox fs : Box) : list Box :=
  if boxIntersect fs placedBox then splitFragments fs placedBox else [fs].

Definition splitSpaces (freeSpaces : list Box) (placedBox : Box) : list Box :=
  flat_map (splitSpace placedBox) freeSpaces.

Definition MIN_DIM : Z := 50.

(** [(a, b) => a.y - b.y || a.z - b.z || a.x - b.x] *)
Definition compareSpaces (a b : Box) : Z :=
  if negb (y a - y b =? 0) then y a - y b
  else if negb (z a - z b =? 0) then z a - z b
  else x a - x b.

Definition validSize (s : Box) : bool :=
  (l s >=? MIN_DIM) && (w s >=? MIN_DIM) && (h s >=? MIN_DIM).

(** A list with the index of each element, as the [i]/[j] loops see it. *)
Definition indexed {A : Type} (xs : list A) : list (nat * A) :=
  combine (seq 0 (List.length xs)) xs.

(** The inner [j] loop: some other index holds a box containing box [i]. *)
Definition isContained (validSizeSpaces : list Box) (i : nat) (bi : Box) : bool :=
  existsb (fun jb => negb (Nat.eqb i (fst jb)) && contains (snd jb) bi)
          (indexed validSizeSpaces).

Definition sortSpaces (spaces : list Box) : list Box :=
  stableSort (fun a b => compareSpaces a b <=? 0) spaces.

Definition cleanupSpaces (spaces : list Box) : list Box :=
  let spaces := sortSpaces spaces in
  let validSizeSpaces := filter validSize spaces in
  map snd (filter (fun ib => negb (isContained validSizeSpaces (fst ib) (snd ib)))
                  (indexed validSizeSpaces)).

(** ** [runPackingTrial] *)

Record TrialResult : Type := mkTrialResult {
  items : list CargoItem;
  packedVolume : Z;
  packedCount : Z
}.

(** The mutable locals of the trial. *)
Record TrialState : Type := mkTrialState {
  freeSpaces : list Box;
  placedItems : list CargoItem;
  totalPackedVol : Z
}.

Definition initialState (container : Dimensions) : TrialState :=
  {| freeSpaces := [ {| x := 0; y := 0; z := 0;
                        l := length container; h := height container;
                        w := width container |} ];
     placedItems := [];
     totalPackedVol := 0 |}.

(** Stands for [freeSpaces[i]] at an index outside the array; the scorer
    only returns indices inside it ([scanSpaces_index]). *)
Definition noBox : Box := mkBox 0 0 0 0 0 0.

Definition placedBoxOf (item : CargoItem) (space : Box) (rotation : bool) : Box :=
  let placedWidth := if rotation then length (dimensions item) else width (dimensions item) in
  let placedLength := if rotation then width (dimensions item) else length (dimensions item) in
  {| x := x space; y := y space; z := z space;
     l := placedLength; h := height (dimensions item); w := placedWidth |}.

(** Body of [for (const item of itemsToPack)]. *)
Definition packItem (st : TrialState) (item : CargoItem) : TrialState :=
  let best := scanSpaces item (freeSpaces st) 0 initBest in
  if negb (bestSpaceIndex best =? -1) then
    let space := nth (Z.to_nat (bestSpaceIndex best)) (freeSpaces st) noBox in
    let placedWidth :=
      if bestRotation best then length (dimensions item) else width (dimensions item) in
    let placedLength :=
      if bestRotation best then width (dimensions item) else length (dimensions item) in
    let finalDimensions :=
      if bestRotation best
      then {| length := placedLength; width := placedWidth;
              height := height (dimensions item) |}
      else dimensions item in
    let newItem := withPlacement item finalDimensions (x space, y space, z space) in
    let placedBox := placedBoxOf item space (bestRotation best) in
    {| freeSpaces := cleanupSpaces (splitSpaces (freeSpaces st) placedBox);
       placedItems := placedItems st ++ [newItem];
       totalPackedVol := totalPackedVol st + volume (dimensions newItem) |}
  else
    {| freeSpaces := freeSpaces st;
       placedItems := placedItems st ++ [withPosition item (0, -9999, 0) false];
       totalPackedVol := totalPackedVol st |}.

Definition runTrialLoop (itemsToPack : list CargoItem) (container : Dimensions) : TrialState :=
  fold_left packItem itemsToPack (initialState container).

Definition runPackingTrial
    (sortItems : SortStrategy -> Z -> list CargoItem -> list CargoItem)
    (inputItems : list CargoItem) (container : Dimensions)
    (strategy : SortStrategy) (randomSeed : Z) : TrialResult :=
  let itemsToPack := sortItems strategy randomSeed inputItems in
  let st := runTrialLoop itemsToPack container in
  {| items := placedItems st;
     packedVolume := totalPackedVol st;
     packedCount := Z.of_nat (List.length (filter isValid (placedItems st))) |}.

(** ** [autoPack] *)

Definition trials : list (SortStrategy * Z) :=
  [ (VOLUME, 0); (FOOTPRINT, 0); (MAX_DIM, 0);
    (RANDOM_WEIGHTED, 1); (RANDOM_WEIGHTED, 42);
    (RANDOM_WEIGHTED, 123); (RANDOM_WEIGHTED, 999) ].

(** [if (!bestResult || result.packedVolume > bestResult.packedVolume)
       bestResult = result] *)
Definition keepBest (bestResult : option TrialResult) (result : TrialResult)
    : option TrialResult :=
  match bestResult with
  | None => Some result
  | Some b => if packedVolume result >? packedVolume b then Some result else Some b
  end.

Definition bestOfTrials (results : list TrialResult) : option TrialResult :=
  fold_left keepBest results None.

(** The tail of [autoPack]: valid items first, failed ones re-staged. *)
Definition finishPack (bestResult : TrialResult) (container : Dimensions) : list CargoItem :=
  let success := filter isValid (items bestResult) in
  let failed := filter (fun i => negb (isValid i)) (items bestResult) in
  let stagedFailed := arrangeStaging failed container in
  success ++ stagedFailed.

Definition trialResults
    (sortItems : SortStrategy -> Z -> list CargoItem -> list CargoItem)
    (inputItems : list CargoItem) (container : Dimensions) : list TrialResult :=
  map (fun t => runPackingTrial sortItems inputItems container (fst t) (snd t)) trials.

Definition autoPack
    (sortItems : SortStrategy -> Z -> list CargoItem -> list CargoItem)
    (inputItems : list CargoItem) (container : Dimensions) : list CargoItem :=
  match bestOfTrials (trialResults sortItems inputItems container) with
  | None => inputItems
  | Some bestResult => finishPack bestResult container
  end.

(** * Specification-side predicates *)

(** Two boxes overlap by more than [eps] on each of the three axes. *)
Definition overlapsBeyond (eps : Z) (a b : Box) : Prop :=
  (x a + eps < x b + l b /\ x b + eps < x a + l a) /\
  (y a + eps < y b + h b /\ y b + eps < y a + h a) /\
  (z a + eps < z b + w b /\ z b + eps < z a + w a).

(** [inner] lies inside [outer], faces included. *)
Definition inside (outer inner : Box) : Prop :=
  x outer <= x inner /\ y outer <= y inner /\ z outer <= z inner /\
  x inner + l inner <= x outer + l outer /\
  y inner + h inner <= y outer + h outer /\
  z inner + w inner <= z outer + w outer.

(** Open-interval overlap on the three axes. *)
Definition intersects (a b : Box) : Prop :=
  (x a < x b + l b /\ x b < x a + l a) /\
  (y a < y b + h b /\ y b < y a + h a) /\
  (z a < z b + w b /\ z b < z a + w a).

Definition positiveExtents (b : Box) : Prop := 0 < l b /\ 0 < h b /\ 0 < w b.

Definition positiveDimensions (d : Dimensions) : Prop :=
  0 < length d /\ 0 < width d /\ 0 < height d.

Definition containerBox (container : Dimensions) : Box :=
  {| x := 0; y := 0; z := 0;
     l := length container; h := height container; w := width container |}.

(** The neighbour of the snapping scenario: it starts at [x0] and is [len]
    long. *)
Definition neighbourAt (other : CargoItem) (x0 len : Z) : Prop :=
  pos0 (position other) = x0 /\ length (dimensions other) = len.

(** ** Sample data *)

Definition sampleItem (name : string) (len wid hei : Z) (pos : Z * Z * Z) : CargoItem :=
  {| id := name; drawingNo := "7.997.70.623.0"; subDrawingNo := Some "BOLT-SET-X"%string;
     dimensions := {| length := len; width := wid; height := hei |};
     position := pos; color := "#ef4444"; weight := 5; selected := false;
     isValid := true; subItems := Some []; isGroup := Some false |}.

(** ** The slices of a free space around a placed box

    The five candidate fragments of [fs] as the specification names them,
    and the sixth one, below the placed box, that the split leaves out. *)

Definition rightSlice (fs p : Box) : Box :=
  {| x := x p + l p; y := y fs; z := z fs;
     l := (x fs + l fs) - (x p + l p); h := h fs; w := w fs |}.

Definition leftSlice (fs p : Box) : Box :=
  {| x := x fs; y := y fs; z := z fs; l := x p - x fs; h := h fs; w := w fs |}.

Definition aboveSlice (fs p : Box) : Box :=
  {| x := x fs; y := y p + h p; z := z fs;
     l := l fs; h := (y fs + h fs) - (y p + h p); w := w fs |}.

Definition frontSlice (fs p : Box) : Box :=
  {| x := x fs; y := y fs; z := z p + w p;
     l := l fs; h := h fs; w := (z fs + w fs) - (z p + w p) |}.

Definition behindSlice (fs p : Box) : Box :=
  {| x := x fs; y := y fs; z := z fs; l := l fs; h := h fs; w := z p - z fs |}.

Definition belowSlice (fs p : Box) : Box :=
  {| x := x fs; y := y fs; z := z fs; l := l fs; h := y p - y fs; w := w fs |}.

(** A candidate fragment is emitted only with positive extent on its axis. *)
Definition emitIfPositive (extent : Box -> Z) (b : Box) : list Box :=
  if 0 <? extent b then [b] else [].

Definition fiveSlices (fs p : Box) : list Box :=
  emitIfPositive l (rightSlice fs p) ++ emitIfPositive l (leftSlice fs p) ++
  emitIfPositive h (aboveSlice fs p) ++
  emitIfPositive w (frontSlice fs p) ++ emitIfPositive w (behindSlice fs p).

(** What replaces one free space [fs] when [p] is placed. *)
Definition replacement (p fs : Box) (pieces : list Box) : Prop :=
  (intersects fs p /\ pieces = fiveSlices fs p) \/
  (~ intersects fs p /\ pieces = [fs]).

(** ** Cleanup: survivors of the size filter and indices that are kept *)

(** The boxes left by the size filter, in the order the containment loops
    index them. *)
Definition sizeSurvivors (spaces : list Box) : list Box :=
  filter validSize (sortSpaces spaces).

(** Box number [i] of [survivors] lies inside the box held at another
    index. *)
Definition containedElsewhere (survivors : list Box) (i : nat) : Prop :=
  exists j bi bj, j <> i /\ nth_error survivors i = Some bi /\
                  nth_error survivors j = Some bj /\ inside bj bi.

(** No box of the list lies inside the box held at another index. *)
Definition noneInsideAnother (boxes : list Box) : Prop :=
  forall i j a b, i <> j -> nth_error boxes i = Some a -> nth_error boxes j = Some b ->
                  ~ inside b a.

(** ** Placement candidates, as the specification describes the scorer *)

Record Candidate : Type := mkCandidate {
  candIndex : nat;      (* position of the space in the free-space list *)
  candRotated : bool;
  candScore : Z
}.

(** An orientation of [item] is feasible in [space]: each extent fits the
    corresponding extent of the space, height never rotates, and the rotated
    orientation exists only for a footprint that is not square. *)
Definition orientationFits (item : CargoItem) (rotated : bool) (space : Box) : Prop :=
  if rotated
  then length (dimensions item) <> width (dimensions item) /\
       width (dimensions item) <= l space /\
       height (dimensions item) <= h space /\
       length (dimensions item) <= w space
  else length (dimensions item) <= l space /\
       height (dimensions item) <= h space /\
       width (dimensions item) <= w space.

Definition isCandidate (item : CargoItem) (spaces : list Box) (c : Candidate) : Prop :=
  exists space,
    nth_error spaces (candIndex c) = Some space /\
    orientationFits item (candRotated c) space /\
    candScore c = y space * 1000000 + z space * 1000 + x space.

(** Iteration order: free-space list order, and for one space the unrotated
    orientation before the rotated one. *)
Definition candidateBefore (c1 c2 : Candidate) : Prop :=
  (candIndex c1 < candIndex c2)%nat \/
  (candIndex c1 = candIndex c2 /\ candRotated c1 = false /\ candRotated c2 = true).

Definition candidatesAt (item : CargoItem) (i : nat) (space : Box) : list Candidate :=
  (if fitsUnrotated item space then [mkCandidate i false (spaceScore space)] else []) ++
  (if negb (length (dimensions item) =? width (dimensions item)) && fitsRotated item space
   then [mkCandidate i true (spaceScore space)] else []).

Fixpoint candidatesFrom (item : CargoItem) (spaces : list Box) (i : nat) : list Candidate :=
  match spaces with
  | [] => []
  | space :: rest => candidatesAt item i space ++ candidatesFrom item rest (S i)
  end.

(** All feasible (space, orientation) pairs in iteration order. *)
Definition candidates (item : CargoItem) (spaces : list Box) : list Candidate :=
  candidatesFrom item spaces 0.

(** The scorer state that records candidate [c] as the best one. *)
Definition bestOf (c : Candidate) : Best :=
  mkBest (Z.of_nat (candIndex c)) (candRotated c) (Some (candScore c)).

(** [c] is the first candidate of [cands] with the lowest score. *)
Definition firstLowest (cands : list Candidate) (c : Candidate) : Prop :=
  exists before after,
    cands = before ++ c :: after /\
    (forall c', In c' before -> candScore c < candScore c') /\
    (forall c', In c' after -> candScore c <= candScore c').

(** One comparison of the scan. *)
Definition pick (best : Best) (c : Candidate) : Best :=
  if scoreBelow (candScore c) (bestScore best) then bestOf c else best.

(** ** Invariants of a packing trial *)

(** The box lies in the container: origin coordinates at least 0, origin
    plus extent at most the container's extent on each axis. *)
Definition withinContainer (container : Dimensions) (b : Box) : Prop :=
  0 <= x b /\ 0 <= y b /\ 0 <= z b /\
  x b + l b <= length container /\
  y b + h b <= height container /\
  z b + w b <= width container.

Definition goodSpace (container : Dimensions) (b : Box) : Prop :=
  withinContainer container b /\ positiveExtents b.

Definition goodSpaces (container : Dimensions) (spaces : list Box) : Prop :=
  Forall (goodSpace container) spaces.

(** The boxes of the items placed so far. *)
Definition validBoxes (st : TrialState) : list Box :=
  map itemBox (filter isValid (placedItems st)).

Definition disjointBoxes (a b : Box) : Prop := ~ intersects a b.

Record TrialInv (container : Dimensions) (st : TrialState) : Prop := mkTrialInv {
  inv_spaces_inside : Forall (inside (containerBox container)) (freeSpaces st);
  inv_spaces_free : forall fs q, In fs (freeSpaces st) -> In q (validBoxes st) ->
                                 disjointBoxes fs q;
  inv_placed_disjoint : ForallOrdPairs disjointBoxes (validBoxes st);
  inv_placed_inside : Forall (inside (containerBox container)) (validBoxes st)
}.

(** ** Shelf layout of the staging area *)

(** Depth of the row at depth coordinate [zc]: the largest footprint width
    among the items of [row] standing at [zc] (0 for none). *)
Fixpoint rowDepth (row : list CargoItem) (zc : Z) : Z :=
  match row with
  | [] => 0
  | o :: rest =>
      if pos2 (position o) =? zc
      then Z.max (width (dimensions o)) (rowDepth rest zc)
      else rowDepth rest zc
  end.

(** [b] directly follows [a] on the shelf, [upToA] being the items staged up
    to and including [a]: either [b] continues the row of [a], one spacing
    to its right, or its length would pass the row-width limit there and it
    opens the next row, one spacing behind the deepest item of [a]'s row. *)
Definition shelfNext (upToA : list CargoItem) (a b : CargoItem) : Prop :=
  let nextX := pos0 (position a) + (length (dimensions a) + spacing) in
  (nextX + length (dimensions b) <= stagingWidthLimit /\
   position b = (nextX, 0, pos2 (position a)))
  \/
  (nextX + length (dimensions b) > stagingWidthLimit /\
   position b = (0, 0, pos2 (position a) + (rowDepth upToA (pos2 (position a)) + spacing))).

(** The first staged item opens the shelf at the staging origin (one empty
    row is skipped when the item alone is longer than the limit). *)
Definition shelfFirst (container : Dimensions) (a : CargoItem) : Prop :=
  (length (dimensions a) <= stagingWidthLimit /\
   position a = (0, 0, stagingZStart container))
  \/
  (length (dimensions a) > stagingWidthLimit /\
   position a = (0, 0, stagingZStart container + spacing)).

(** Two staged boxes are a full spacing apart along x or along z. *)
Definition shelfSeparated (a b : CargoItem) : Prop :=
  pos0 (position a) + length (dimensions a) + spacing <= pos0 (position b) \/
  pos2 (position a) + width (dimensions a) + spacing <= pos2 (position b).

(** A list in which no two elements at different indices are related. *)
Definition pairwiseApart (R : CargoItem -> CargoItem -> Prop) (xs : list CargoItem) : Prop :=
  forall i j a b, i <> j -> nth_error xs i = Some a -> nth_error xs j = Some b -> ~ R a b.

Definition boxesOverlap (a b : CargoItem) : Prop :=
  overlapsBeyond epsilon (itemBox a) (itemBox b).

Definition boxesIntersect (a b : CargoItem) : Prop :=
  intersects (itemBox a) (itemBox b).

Definition allPositive (xs : list CargoItem) : Prop :=
  Forall (fun i => positiveDimensions (dimensions i)) xs.

(** ** What identifies an item through a run *)

(** Everything a trial and the staging leave alone: the identity fields, the
    weight, the height, and the footprint up to its rotation. *)
Definition cargoKey (item : CargoItem)
    : string * string * option string * string * Z * bool *
      option (list SubItem) * option bool * Z * Z * Z :=
  (id item, drawingNo item, subDrawingNo item, color item, weight item, selected item,
   subItems item, isGroup item, height (dimensions item),
   Z.min (length (dimensions item)) (width (dimensions item)),
   Z.max (length (dimensions item)) (width (dimensions item))).

(** The sort of a trial rearranges its input and nothing else. *)
Definition rearranges (sortItems : SortStrategy -> Z -> list CargoItem -> list CargoItem)
    : Prop :=
  forall strategy randomSeed xs, Permutation (sortItems strategy randomSeed xs) xs.

(** [winner] is the first result of [results] with the greatest packed
    volume. *)
Definition firstGreatest (results : list TrialResult) (winner : TrialResult) : Prop :=
  exists before after,
    results = before ++ winner :: after /\
    (forall r, In r before -> packedVolume r < packedVolume winner) /\
    (forall r, In r after -> packedVolume r <= packedVolume winner).


(** Neither box intersects the other. *)
Definition apartBoxes (a b : CargoItem) : Prop :=
  ~ boxesIntersect a b /\ ~ boxesIntersect b a.

(** Two items flagged valid whose boxes overlap by more than epsilon. *)
Definition validOverlap (a b : CargoItem) : Prop :=
  isValid a = true /\ isValid b = true /\ boxesOverlap a b.

(** A stand-in for [Math.sin] that switches the perturbation off, to run the
    model on concrete loads. *)
Definition zeroNoise : Z -> Q := fun _ => 0%Q.

(** A cubic container of side 1000 and three cubes of side 600: one fits,
    the other two are staged. *)
Definition cube1000 : Dimensions := {| length := 1000; width := 1000; height := 1000 |}.

Definition threeCubes : list CargoItem :=
  [ sampleItem "cube-a" 600 600 600 (0, 0, 0);
    sampleItem "cube-b" 600 600 600 (0, 0, 0);
    sampleItem "cube-c" 600 600 600 (0, 0, 0) ].

(** ** Accounting of a trial *)

(** Sum of the volumes of a list of items. *)
Definition sumVolumes (xs : list CargoItem) : Z :=
  fold_right (fun i acc => volume (dimensions i) + acc) 0 xs.

(** What a trial result says of one of its items: a valid item lies in the
    container, hence is no larger than it; an invalid one sits at the
    sentinel position. *)
Definition trialItemOk (container : Dimensions) (o : CargoItem) : Prop :=
  (isValid o = true /\ withinContainer container (itemBox o) /\
   length (dimensions o) <= length container /\
   height (dimensions o) <= height container /\
   width (dimensions o) <= width container)
  \/
  (isValid o = false /\ position o = (0, -9999, 0)).

(** A point of space lies in a box, the far faces excluded. *)
Definition pointIn (px py pz : Z) (b : Box) : Prop :=
  (x b <= px < x b + l b) /\ (y b <= py < y b + h b) /\ (z b <= pz < z b + w b).

(** ** Order of the free-space list *)

(** [a] does not come after [b] in the order of [cleanupSpaces]: by height
    first, then depth, then left to right. *)
Definition spaceOrder (a b : Box) : Prop :=
  y a < y b \/ (y a = y b /\ (z a < z b \/ (z a = z b /\ x a <= x b))).

(** ** Snapping targets *)

(** The x coordinates [getSnappingPosition] can snap to: the origin, and for
    each other item its far face, the position that brings the moved item's
    far face to its near face, its near face, and the position that aligns
    the two far faces. *)
Definition snapTargetsX (dims : Dimensions) (selfId : string) (others : list CargoItem)
    : list Z :=
  0 :: flat_map (fun o =>
         if String.eqb (id o) selfId then []
         else [ pos0 (position o) + length (dimensions o);
                pos0 (position o) - length dims;
                pos0 (position o);
                pos0 (position o) + length (dimensions o) - length dims ]) others.

Definition snapTargetsY (dims : Dimensions) (selfId : string) (others : list CargoItem)
    : list Z :=
  0 :: flat_map (fun o =>
         if String.eqb (id o) selfId then []
         else [ pos1 (position o) + height (dimensions o);
                pos1 (position o) - height dims ]) others.

Definition snapTargetsZ (dims : Dimensions) (selfId : string) (others : list CargoItem)
    : list Z :=
  0 :: flat_map (fun o =>
         if String.eqb (id o) selfId then []
         else [ pos2 (position o) + width (dimensions o);
                pos2 (position o) - width dims;
                pos2 (position o);
                pos2 (position o) + width (dimensions o) - width dims ]) others.

(** The items of a list that do not carry the given id. *)
Definition withoutId (selfId : string) (others : list CargoItem) : list CargoItem :=
  filter (fun o => negb (String.eqb (id o) selfId)) others.

(** The corner of an item has no negative coordinate. *)
Definition cornerNonNegative (a : CargoItem) : Prop :=
  0 <= pos0 (position a) /\ 0 <= pos1 (position a) /\ 0 <= pos2 (position a).

(** ** Orders of the sort strategies *)

Definition footprint (d : Dimensions) : Z := length d * width d.

Definition maxDim (d : Dimensions) : Z := Z.max (Z.max (length d) (width d)) (height d).

(** Larger volume first, taller first among equal volumes. *)
Definition volumeFirst (a b : CargoItem) : Prop :=
  volume (dimensions a) > volume (dimensions b) \/
  (volume (dimensions a) = volume (dimensions b) /\
   height (dimensions a) >= height (dimensions b)).

(** Larger footprint first, then as [volumeFirst]. *)
Definition footprintFirst (a b : CargoItem) : Prop :=
  footprint (dimensions a) > footprint (dimensions b) \/
  (footprint (dimensions a) = footprint (dimensions b) /\ volumeFirst a b).

(** Longer longest side first, then as [volumeFirst]. *)
Definition maxDimFirst (a b : CargoItem) : Prop :=
  maxDim (dimensions a) > maxDim (dimensions b) \/
  (maxDim (dimensions a) = maxDim (dimensions b) /\ volumeFirst a b).

(** [{ ...item.dimensions, length: width, width: length }] *)
Definition rotatedDimensions (d : Dimensions) : Dimensions :=
  {| length := width d; width := length d; height := height d |}.

(** ** [getStringColor]

    Strings are sequences of code units below 256 ([charCodeAt] is the code
    of the character).  [hash << 5] converts [hash] to a signed 32-bit
    integer before shifting and wraps the result to 32 bits; the subtraction
    and the addition around it are plain number arithmetic. *)

Definition DISTINCT_COLORS : list string :=
  [ "#ef4444"; "#3b82f6"; "#10b981"; "#f59e0b"; "#8b5cf6";
    "#ec4899"; "#06b6d4"; "#f97316"; "#6366f1"; "#84cc16";
    "#14b8a6"; "#d946ef"; "#e11d48"; "#2563eb"; "#9333ea";
    "#059669"; "#d97706"; "#db2777"; "#0891b2"; "#4f46e5" ]%string.

(** ToInt32 of an integer. *)
Definition toInt32 (n : Z) : Z := (n + 2 ^ 31) mod 2 ^ 32 - 2 ^ 31.

(** [n << k] for [0 <= k < 32]. *)
Definition shiftLeft32 (n k : Z) : Z := toInt32 (Z.shiftl (toInt32 n) k).

Definition charCodes (str : string) : list Z :=
  map (fun c => Z.of_nat (nat_of_ascii c)) (list_ascii_of_string str).

(** Body of the [for] loop over the characters. *)
Definition hashStep (hash charCode : Z) : Z := charCode + (shiftLeft32 hash 5 - hash).

Definition hashString (str : string) : Z := fold_left hashStep (charCodes str) 0.

(** [DISTINCT_COLORS[index]]; the empty string stands for [undefined]. *)
Definition getStringColor (str : string) : string :=
  let index := Z.rem (Z.abs (hashString str)) (Z.of_nat (List.length DISTINCT_COLORS)) in
  nth (Z.to_nat index) DISTINCT_COLORS EmptyString.

(** ** [createCargoGroups] and [optimizeLoad] *)

(** The fields carry the prefix [row]: [CargoItem] and [Dimensions] already
    own [subDrawingNo], [weight], [length], [width] and [height]. *)
Record ImportedRow : Type := mkImportedRow {
  rowMainDrawingNo : string;
  rowSubDrawingNo : string;
  rowLength : Z;
  rowWidth : Z;
  rowHeight : Z;
  rowQuantity : Z;
  rowWeight : Z
}.

(** White space and line terminators among the code units below 256, as
    [String.prototype.trim] strips them. *)
Definition isWhiteSpace (c : ascii) : bool :=
  let n := nat_of_ascii c in
  Nat.eqb n 9 || Nat.eqb n 10 || Nat.eqb n 11 || Nat.eqb n 12 || Nat.eqb n 13
  || Nat.eqb n 32 || Nat.eqb n 160.

(** [str.trim() !== ''] *)
Definition trimNonEmpty (str : string) : bool :=
  negb (forallb isWhiteSpace (list_ascii_of_string str)).

(** [row.subDrawingNo && row.subDrawingNo.trim() !== '' ? row.subDrawingNo
    : row.mainDrawingNo] *)
Definition identifierOf (row : ImportedRow) : string :=
  if negb (String.eqb (rowSubDrawingNo row) EmptyString)
     && trimNonEmpty (rowSubDrawingNo row)
  then rowSubDrawingNo row
  else rowMainDrawingNo row.

(** Decimal image of an index in a template literal. *)
Definition decimal (n : nat) : string := NilEmpty.string_of_uint (Nat.to_uint n).

(** [`item-${rowIdx}-${i}-${Date.now()}-${Math.random()...}`]: the part
    after the third dash comes from the clock and the random generator and
    is the parameter [stamp]. *)
Definition itemId (stamp : nat -> nat -> string) (rowIdx i : nat) : string :=
  ("item-" ++ decimal rowIdx ++ "-" ++ decimal i ++ "-" ++ stamp rowIdx i)%string.

(** The object pushed for copy [i] of row [rowIdx]. *)
Definition itemOfRow (stamp : nat -> nat -> string) (rowIdx : nat) (row : ImportedRow)
    (i : nat) : CargoItem :=
  {| id := itemId stamp rowIdx i;
     drawingNo := rowMainDrawingNo row;
     subDrawingNo := Some (rowSubDrawingNo row);
     dimensions := {| length := rowLength row; width := rowWidth row;
                      height := rowHeight row |};
     position := (0, 0, 0);
     color := getStringColor (identifierOf row);
     weight := rowWeight row;
     selected := false;
     isValid := true;
     subItems := Some [];
     isGroup := Some false |}.

(** The inner loop [for (let i = 0; i < row.quantity; i++)], for an integer
    quantity. *)
Definition itemsOfRow (stamp : nat -> nat -> string) (rowIdx : nat) (row : ImportedRow)
    : list CargoItem :=
  map (itemOfRow stamp rowIdx row) (seq 0 (Z.to_nat (rowQuantity row))).

Definition createCargoGroups (stamp : nat -> nat -> string) (rows : list ImportedRow)
    : list CargoItem :=
  flat_map (fun ir => itemsOfRow stamp (fst ir) (snd ir)) (indexed rows).

Definition optimizeLoad
    (sortItems : SortStrategy -> Z -> list CargoItem -> list CargoItem)
    (stamp : nat -> nat -> string)
    (rawRows : list ImportedRow) (container : Dimensions) : list CargoItem :=
  autoPack sortItems (createCargoGroups stamp rawRows) container.

(** ** The application: statistics filter and item handlers of [App] *)

(** [i => i.position[1] >= 0 && i.position[0] < container.length], the
    filter of [stats] and of the exported manifest. *)
Definition isLoaded (container : Dimensions) (i : CargoItem) : bool :=
  (pos1 (position i) >=? 0) && (pos0 (position i) <? length container).

Definition loadedItems (container : Dimensions) (xs : list CargoItem) : list CargoItem :=
  filter (isLoaded container) xs.

(** [onUpdateItem]: [prev.map(i => i.id === id ? { ...i, position: pos } : i)] *)
Definition onUpdateItem (uid : string) (pos : Z * Z * Z) (prev : list CargoItem)
    : list CargoItem :=
  map (fun i => if String.eqb (id i) uid then withPosition i pos (isValid i) else i) prev.

(** [onSelectItem]: [prev.map(i => ({ ...i, selected: i.id === id }))] *)
Definition onSelectItem (sid : string) (prev : list CargoItem) : list CargoItem :=
  map (fun i =>
         {| id := id i; drawingNo := drawingNo i; subDrawingNo := subDrawingNo i;
            dimensions := dimensions i; position := position i; color := color i;
            weight := weight i; selected := String.eqb (id i) sid; isValid := isValid i;
            subItems := subItems i; isGroup := isGroup i |}) prev.

(** ** Specification-side notions for the import *)

(** Number of items a list of rows asks for; a quantity of 0 or less asks
    for none. *)
Definition totalQuantity (rows : list ImportedRow) : nat :=
  fold_right (fun row acc => (Z.to_nat (rowQuantity row) + acc)%nat) 0%nat rows.

Definition positiveRow (row : ImportedRow) : Prop :=
  0 < rowLength row /\ 0 < rowWidth row /\ 0 < rowHeight row.

(** What an imported item takes from its row. *)
Definition importedFrom (row : ImportedRow) (it : CargoItem) : Prop :=
  drawingNo it = rowMainDrawingNo row /\
  subDrawingNo it = Some (rowSubDrawingNo row) /\
  dimensions it = {| length := rowLength row; width := rowWidth row;
                     height := rowHeight row |} /\
  weight it = rowWeight row /\
  position it = (0, 0, 0) /\ isValid it = true /\ selected it = false /\
  color it = getStringColor (identifierOf row) /\
  In (color it) DISTINCT_COLORS.

(** The separator of the fields of an identifier. *)
Definition dash : ascii := "-"%char.

(** ** Counting the cells of a box

    Lengths are whole millimetres: a box with non-negative extents is a
    set of unit cells, one per integer point [(px, py, pz)] it holds (far
    faces excluded), and its volume is their number. *)

(** Sum of [f 0 + ... + f (n - 1)]. *)
Fixpoint sumTo (n : nat) (f : Z -> Z) : Z :=
  match n with
  | O => 0
  | S k => sumTo k f + f (Z.of_nat k)
  end.

(** 1 when [lo <= p < lo + len], else 0. *)
Definition inRange (lo len p : Z) : Z :=
  if (lo <=? p) && (p <? lo + len) then 1 else 0.

(** 1 when the cell at [(px, py, pz)] belongs to [b], else 0. *)
Definition cellOf (b : Box) (px py pz : Z) : Z :=
  inRange (x b) (l b) px * (inRange (y b) (h b) py * inRange (z b) (w b) pz).

(** Number of boxes of the list holding the cell. *)
Definition cellsOf (boxes : list Box) (px py pz : Z) : Z :=
  fold_right (fun b acc => cellOf b px py pz + acc) 0 boxes.

(** Sum over the cells of the container. *)
Definition sumCells (container : Dimensions) (f : Z -> Z -> Z -> Z) : Z :=
  sumTo (Z.to_nat (length container)) (fun px =>
    sumTo (Z.to_nat (height container)) (fun py =>
      sumTo (Z.to_nat (width container)) (fun pz => f px py pz))).

Definition boxVolume (b : Box) : Z := l b * h b * w b.

Definition nonNegativeExtents (b : Box) : Prop := 0 <= l b /\ 0 <= h b /\ 0 <= w b.

(** Two rows of a manifest, three items in all, and a fixed stamp. *)
Definition sampleRows : list ImportedRow :=
  [ mkImportedRow "7.997.70.623.0" "BOLT-SET-X" 600 600 600 2 5;
    mkImportedRow "7.997.70.780.0" "" 1230 650 460 1 134 ].

Definition sampleStamp : nat -> nat -> string := fun _ _ => "1767225600000-k3x9q"%string.

(** A cube on the floor of the container and one waiting in the staging
    area. *)
Definition twoCubes : list CargoItem :=
  [ sampleItem "cube-a" 600 600 600 (0, 0, 0);
    sampleItem "cube-b" 600 600 600 (0, 0, 2500) ].


(** * Reflection of the boolean tests *)

Ltac bool_to_prop :=
  repeat match goal with
  | H : _ && _ = true |- _ => apply andb_true_iff in H; destruct H
  | H : _ || _ = true |- _ => apply orb_true_iff in H
  | H : _ && _ = false |- _ => apply andb_false_iff in H
  | H : _ || _ = false |- _ => apply orb_false_iff in H; destruct H
  | H : negb _ = true |- _ => apply negb_true_iff in H
  | H : negb _ = false |- _ => apply negb_false_iff in H
  | H : (_ <? _) = true |- _ => apply Z.ltb_lt in H
  | H : (_ <? _) = false |- _ => apply Z.ltb_ge in H
  | H : (_ <=? _) = true |- _ => apply Z.leb_le in H
  | H : (_ <=? _) = false |- _ => apply Z.leb_gt in H
  | H : (_ >? _) = true |- _ => rewrite Z.gtb_ltb in H; apply Z.ltb_lt in H
  | H : (_ >? _) = false |- _ => rewrite Z.gtb_ltb in H; apply Z.ltb_ge in H
  | H : (_ >=? _) = true |- _ => rewrite Z.geb_leb in H; apply Z.leb_le in H
  | H : (_ >=? _) = false |- _ => rewrite Z.geb_leb in H; apply Z.leb_gt in H
  | H : (_ =? _) = true |- _ => apply Z.eqb_eq in H
  | H : (_ =? _) = false |- _ => apply Z.eqb_neq in H
  end.

Lemma overlap_iff (a b : Box) :
  overlap a b = true <-> overlapsBeyond epsilon a b.
Proof.
  unfold overlap, overlapsBeyond, epsilon. split.
  - intro H. bool_to_prop. lia.
  - intros [[? ?] [[? ?] [? ?]]].
    repeat (apply andb_true_iff; split);
      try (rewrite Z.gtb_ltb); apply Z.ltb_lt; lia.
Qed.

Lemma boxIntersect_iff (a b : Box) :
  boxIntersect a b = true <-> intersects a b.
Proof.
  unfold boxIntersect, intersects. split.
  - intro H. bool_to_prop. lia.
  - intros [[? ?] [[? ?] [? ?]]].
    repeat (apply andb_true_iff; split);
      try (rewrite Z.gtb_ltb); apply Z.ltb_lt; lia.
Qed.

Lemma contains_iff (outer inner : Box) :
  contains outer inner = true <-> inside outer inner.
Proof.
  unfold contains, inside. split.
  - intro H. bool_to_prop. lia.
  - intros (? & ? & ? & ? & ? & ?).
    repeat (apply andb_true_iff; split);
      try (rewrite Z.geb_leb); apply Z.leb_le; lia.
Qed.

Lemma overlapsBeyond_intersects (a b : Box) :
  overlapsBeyond epsilon a b -> intersects a b.
Proof. unfold overlapsBeyond, intersects, epsilon. lia. Qed.

Lemma overlapsBeyond_sym (eps : Z) (a b : Box) :
  overlapsBeyond eps a b -> overlapsBeyond eps b a.
Proof. unfold overlapsBeyond. lia. Qed.

Lemma intersects_sym (a b : Box) : intersects a b -> intersects b a.
Proof. unfold intersects. lia. Qed.

Lemma inside_refl (b : Box) : inside b b.
Proof. unfold inside. lia. Qed.

Lemma inside_trans (a b c : Box) : inside a b -> inside b c -> inside a c.
Proof. unfold inside. lia. Qed.

(** A box inside a box that misses [q] misses [q] as well. *)
Lemma inside_disjoint (outer inner q : Box) :
  inside outer inner -> ~ intersects outer q -> ~ intersects inner q.
Proof. unfold inside, intersects. lia. Qed.

(** * Collision detector (C7) *)

Lemma collisionLoop_iff (target : Box) (targetId : string) (others : list CargoItem) :
  collisionLoop target targetId others = true <->
  exists other, In other others /\ id other <> targetId /\
                overlapsBeyond epsilon target (itemBox other).
Proof.
  induction others as [|o rest IH]; simpl.
  - split; [discriminate | intros (? & [] & _)].
  - destruct (String.eqb_spec (id o) targetId) as [Heq | Hne].
    + rewrite IH. split.
      * intros (other & Hin & Hid & Hov). exists other. auto.
      * intros (other & [<- | Hin] & Hid & Hov); [contradiction|].
        exists other. auto.
    + destruct (overlap target (itemBox o)) eqn:Hov.
      * split; [intros _ | reflexivity].
        exists o. split; [now left|]. split; [assumption|].
        now apply overlap_iff.
      * rewrite IH. split.
        -- intros (other & Hin & Hid & Hb). exists other. auto.
        -- intros (other & [<- | Hin] & Hid & Hb).
           ++ apply overlap_iff in Hb. congruence.
           ++ exists other. auto.
Qed.

(** C7. [checkCollision item others container] is true exactly when a
    coordinate of the item's corner is negative or the item's box overlaps,
    by more than epsilon on all three axes, the box of an element of
    [others] with a different id; the container argument plays no part. *)
Theorem checkCollision_spec (item : CargoItem) (others : list CargoItem)
    (container : Dimensions) :
  (checkCollision item others container = true <->
     (pos0 (position item) < 0 \/ pos1 (position item) < 0 \/ pos2 (position item) < 0)
     \/ exists other, In other others /\ id other <> id item /\
                      overlapsBeyond epsilon (itemBox item) (itemBox other))
  /\ (forall container' : Dimensions,
        checkCollision item others container' = checkCollision item others container).
Proof.
  split; [|reflexivity].
  unfold checkCollision, checkCollisionWithCoords.
  rewrite <- collisionLoop_iff. simpl.
  destruct (pos0 (position item) <? 0) eqn:Hx;
  destruct (pos1 (position item) <? 0) eqn:Hy;
  destruct (pos2 (position item) <? 0) eqn:Hz; simpl; bool_to_prop;
    try (split; [intros _; left; lia | reflexivity]).
  split; [intro H; now right | intros [H | H]; [lia | exact H]].
Qed.

(** * Snapping engine (C8) *)

Lemma snap_single_x (cx : Z) (dims : Dimensions) (other : CargoItem)
    (selfId : string) (threshold : Z) (cy cz : Z) :
  id other <> selfId ->
  threshold <= Z.abs cx ->
  pos0 (getSnappingPosition (cx, cy, cz) dims [other] selfId threshold) =
    let ox := pos0 (position other) in
    let ol := length (dimensions other) in
    let newX := cx in
    let newX := if Z.abs (newX - (ox + ol)) <? threshold then ox + ol else newX in
    let newX := if Z.abs ((newX + length dims) - ox) <? threshold
                then ox - length dims else newX in
    let newX := if Z.abs (newX - ox) <? threshold then ox else newX in
    if Z.abs ((newX + length dims) - (ox + ol)) <? threshold
    then ox + ol - length dims else newX.
Proof.
  intros Hid Hcx. unfold getSnappingPosition.
  cbn [fold_left pos0 pos1 pos2 fst snd]. unfold snapStep.
  apply String.eqb_neq in Hid. rewrite Hid.
  apply Z.ltb_ge in Hcx. rewrite Hcx.
  reflexivity.
Qed.

(** C8, as the code has it.  With the candidate corner at (152,0,0),
    threshold 150 and one neighbour occupying x in [0,150], the snapped x is
    150 as soon as the moved item is at least 150 long. *)
Theorem snap_scenario_far_face (dims : Dimensions) (other : CargoItem) (selfId : string) :
  id other <> selfId ->
  neighbourAt other 0 150 ->
  150 <= length dims ->
  pos0 (getSnappingPosition (152, 0, 0) dims [other] selfId 150) = 150.
Proof.
  intros Hid [Hx Hl] Hlen.
  rewrite snap_single_x by (assumption || (simpl; lia)).
  rewrite Hx, Hl. cbv zeta.
  replace (Z.abs (152 - (0 + 150)) <? 150) with true by reflexivity.
  replace (Z.abs (0 + 150 + length dims - 0) <? 150) with false
    by (symmetry; apply Z.ltb_ge; lia).
  replace (Z.abs (0 + 150 - 0) <? 150) with false by reflexivity.
  replace (Z.abs (0 + 150 + length dims - (0 + 150)) <? 150) with false
    by (symmetry; apply Z.ltb_ge; lia).
  reflexivity.
Qed.

(** Witness of [snap_scenario_far_face]: a 150 x 150 x 100 item next to a
    neighbour of the same footprint at the origin. *)
Lemma snap_scenario_far_face_witness :
  pos0 (getSnappingPosition (152, 0, 0) (mkDimensions 150 150 100)
          [sampleItem "neighbour" 150 150 100 (0, 0, 0)] "moved" 150) = 150.
Proof.
  apply snap_scenario_far_face.
  - simpl. discriminate.
  - split; reflexivity.
  - simpl. lia.
Defined.

(** C8 as stated fails for a moved item shorter than the threshold: after
    the corner has snapped to the far face (x = 150), the right-face
    alignment rule of the same neighbour fires and moves it to 150 - 100. *)
Lemma snap_scenario_short_item :
  pos0 (getSnappingPosition (152, 0, 0) (mkDimensions 100 100 100)
          [sampleItem "neighbour" 150 150 100 (0, 0, 0)] "moved" 150) = 50
  /\ pos0 (getSnappingPosition (152, 0, 0) (mkDimensions 100 100 100)
          [sampleItem "neighbour" 150 150 100 (0, 0, 0)] "moved" 150) <> 150.
Proof. split; [reflexivity | discriminate]. Qed.

(** * Free-space split (C5) *)

Lemma ltb_as_positive (a b : Z) : (a <? b) = (0 <? b - a).
Proof. destruct (Z.ltb_spec a b), (Z.ltb_spec 0 (b - a)); lia || reflexivity. Qed.

Lemma gtb_as_positive (a b : Z) : (a >? b) = (0 <? a - b).
Proof. rewrite Z.gtb_ltb. apply ltb_as_positive. Qed.

Lemma splitFragments_fiveSlices (fs p : Box) :
  intersects fs p -> splitFragments fs p = fiveSlices fs p.
Proof.
  intros [[Hx1 Hx2] [[Hy1 Hy2] [Hz1 Hz2]]].
  unfold splitFragments, fiveSlices, emitIfPositive,
    rightSlice, leftSlice, aboveSlice, frontSlice, behindSlice.
  cbn [x y z l h w].
  rewrite (Z.max_r (x fs)), (Z.max_r (y fs)), (Z.max_r (z fs)) by lia.
  rewrite (ltb_as_positive (x p + l p)), (ltb_as_positive (y p + h p)),
    (ltb_as_positive (z p + w p)), (gtb_as_positive (x p)), (gtb_as_positive (z p)).
  reflexivity.
Qed.

Lemma splitSpace_replacement (p fs : Box) : replacement p fs (splitSpace p fs).
Proof.
  unfold replacement, splitSpace.
  destruct (boxIntersect fs p) eqn:Hi.
  - apply boxIntersect_iff in Hi. left. split; [assumption|].
    now apply splitFragments_fiveSlices.
  - right. split; [|reflexivity].
    intro H. apply boxIntersect_iff in H. congruence.
Qed.

Lemma emitIfPositive_length (extent : Box -> Z) (b : Box) :
  (List.length (emitIfPositive extent b) <= 1)%nat.
Proof. unfold emitIfPositive. destruct (0 <? extent b); simpl; lia. Qed.

Lemma emitIfPositive_In (extent : Box -> Z) (b f : Box) :
  In f (emitIfPositive extent b) <-> f = b /\ 0 < extent b.
Proof.
  unfold emitIfPositive. destruct (Z.ltb_spec 0 (extent b)); simpl.
  - split; [intros [<- | []]; auto | intros [-> _]; auto].
  - split; [intros [] | intros [_ ?]; lia].
Qed.

Lemma fiveSlices_In (fs p f : Box) :
  In f (fiveSlices fs p) <->
  (f = rightSlice fs p /\ 0 < l f) \/ (f = leftSlice fs p /\ 0 < l f) \/
  (f = aboveSlice fs p /\ 0 < h f) \/
  (f = frontSlice fs p /\ 0 < w f) \/ (f = behindSlice fs p /\ 0 < w f).
Proof.
  unfold fiveSlices. rewrite !in_app_iff, !emitIfPositive_In.
  split.
  - intros [[-> ?] | [[-> ?] | [[-> ?] | [[-> ?] | [-> ?]]]]]; auto 10.
  - intros [[-> ?] | [[-> ?] | [[-> ?] | [[-> ?] | [-> ?]]]]]; auto 10.
Qed.

(** C5. Placing [p] rewrites the free-space list box by box: a box that
    intersects [p] is replaced by those of its right, left, above, front and
    behind slices that have positive extent on the slicing axis (at most
    five, in that order), a box that does not intersect [p] is kept as it
    is; the slice below [p] is never among the fragments, none of which
    lies under the bottom face of [p]. *)
Theorem splitSpaces_spec (freeSpaces : list Box) (p : Box) :
  (exists pieces : list (list Box),
     Forall2 (replacement p) freeSpaces pieces /\
     splitSpaces freeSpaces p = List.concat pieces) /\
  (forall fs, (List.length (fiveSlices fs p) <= 5)%nat) /\
  (forall fs f, In f (fiveSlices fs p) <->
     (f = rightSlice fs p /\ 0 < l f) \/ (f = leftSlice fs p /\ 0 < l f) \/
     (f = aboveSlice fs p /\ 0 < h f) \/
     (f = frontSlice fs p /\ 0 < w f) \/ (f = behindSlice fs p /\ 0 < w f)) /\
  (forall fs, intersects fs p ->
     ~ In (belowSlice fs p) (fiveSlices fs p) /\
     forall f, In f (fiveSlices fs p) -> y p < y f + h f).
Proof.
  split; [|split; [|split]].
  - exists (map (splitSpace p) freeSpaces). split.
    + induction freeSpaces as [|fs rest IH]; simpl; constructor.
      * apply splitSpace_replacement.
      * exact IH.
    + unfold splitSpaces. apply flat_map_concat_map.
  - intro fs. unfold fiveSlices. rewrite !length_app.
    pose proof (emitIfPositive_length l (rightSlice fs p)).
    pose proof (emitIfPositive_length l (leftSlice fs p)).
    pose proof (emitIfPositive_length h (aboveSlice fs p)).
    pose proof (emitIfPositive_length w (frontSlice fs p)).
    pose proof (emitIfPositive_length w (behindSlice fs p)). lia.
  - intros fs f. apply fiveSlices_In.
  - intros fs [[Hx1 Hx2] [[Hy1 Hy2] [Hz1 Hz2]]]. split.
    + intros Hin. apply fiveSlices_In in Hin.
      destruct Hin as [[E _] | [[E _] | [[E _] | [[E _] | [E _]]]]];
        unfold belowSlice, rightSlice, leftSlice, aboveSlice, frontSlice, behindSlice in E;
        injection E; intros; lia.
    + intros f Hin. apply fiveSlices_In in Hin.
      destruct Hin as [[-> _] | [[-> _] | [[-> _] | [[-> _] | [-> _]]]]];
        cbn [rightSlice leftSlice aboveSlice frontSlice behindSlice y h]; lia.
Qed.

(** * Cleanup of the free-space list (C6) *)

Section StableSort.
Context {A : Type} (notAfter : A -> A -> bool).

Lemma insertSorted_perm (e : A) (sorted : list A) :
  Permutation (insertSorted notAfter e sorted) (e :: sorted).
Proof.
  induction sorted as [|s rest IH]; simpl.
  - apply Permutation_refl.
  - destruct (notAfter e s).
    + apply Permutation_refl.
    + apply perm_trans with (s :: e :: rest).
      * now apply perm_skip.
      * apply perm_swap.
Qed.

Lemma stableSort_perm (xs : list A) : Permutation (stableSort notAfter xs) xs.
Proof.
  induction xs as [|a rest IH]; simpl.
  - apply perm_nil.
  - apply perm_trans with (a :: stableSort notAfter rest).
    + apply insertSorted_perm.
    + now apply perm_skip.
Qed.

End StableSort.

Lemma filter_perm {A : Type} (f : A -> bool) (xs ys : list A) :
  Permutation xs ys -> Permutation (filter f xs) (filter f ys).
Proof.
  induction 1 as [| a xs ys _ IH | a b xs | xs ys zs _ IH1 _ IH2]; simpl.
  - apply perm_nil.
  - destruct (f a); [now apply perm_skip | exact IH].
  - destruct (f a), (f b); try apply Permutation_refl. apply perm_swap.
  - now apply perm_trans with (filter f ys).
Qed.

Section Indexed.
Context {A : Type}.

Lemma combine_seq_In (v : list A) (s j : nat) (b : A) :
  In (j, b) (combine (seq s (List.length v)) v) <->
  (s <= j)%nat /\ nth_error v (j - s) = Some b.
Proof.
  revert s. induction v as [|a rest IH]; intro s; simpl.
  - split; [intros [] | intros [_ H]]. now destruct (j - s)%nat.
  - rewrite IH. split.
    + intros [E | [Hle Hn]].
      * injection E as <- <-. split; [lia|]. now rewrite Nat.sub_diag.
      * split; [lia|]. now replace (j - s)%nat with (S (j - S s)) by lia.
    + intros [Hle Hn]. destruct (Nat.eq_dec s j) as [<- | Hne].
      * left. rewrite Nat.sub_diag in Hn. simpl in Hn. congruence.
      * right. split; [lia|].
        now replace (j - s)%nat with (S (j - S s)) in Hn by lia.
Qed.

Lemma indexed_In (v : list A) (j : nat) (b : A) :
  In (j, b) (indexed v) <-> nth_error v j = Some b.
Proof.
  unfold indexed. rewrite combine_seq_In, Nat.sub_0_r.
  split; [now intros [_ H] | intro H; split; [lia | exact H]].
Qed.

Lemma filter_combine_seq (P : nat -> A -> bool) (d : A) (v : list A) (s : nat) :
  filter (fun ib => P (fst ib) (snd ib)) (combine (seq s (List.length v)) v) =
  map (fun i => (i, nth (i - s) v d))
      (filter (fun i => P i (nth (i - s) v d)) (seq s (List.length v))).
Proof.
  revert s. induction v as [|a rest IH]; intro s; [reflexivity|].
  cbn [List.length seq combine filter fst snd].
  rewrite Nat.sub_diag. cbn [nth].
  assert (Hmap : map (fun i => (i, nth (i - S s) rest d))
                     (filter (fun i => P i (nth (i - S s) rest d))
                             (seq (S s) (List.length rest))) =
                 map (fun i => (i, nth (i - s) (a :: rest) d))
                     (filter (fun i => P i (nth (i - s) (a :: rest) d))
                             (seq (S s) (List.length rest)))).
  { rewrite (filter_ext_in (fun i => P i (nth (i - S s) rest d))
                           (fun i => P i (nth (i - s) (a :: rest) d))).
    - apply map_ext_in. intros i Hi. apply filter_In in Hi. destruct Hi as [Hi _].
      apply in_seq in Hi. now replace (i - s)%nat with (S (i - S s)) by lia.
    - intros i Hi. apply in_seq in Hi.
      now replace (i - s)%nat with (S (i - S s)) by lia. }
  destruct (P s a); cbn [map]; rewrite IH, Hmap, ?Nat.sub_diag; reflexivity.
Qed.

Lemma filter_indexed (P : nat -> A -> bool) (d : A) (v : list A) :
  map snd (filter (fun ib => P (fst ib) (snd ib)) (indexed v)) =
  map (fun i => nth i v d) (filter (fun i => P i (nth i v d)) (seq 0 (List.length v))).
Proof.
  unfold indexed. rewrite (filter_combine_seq P d), map_map. cbn [snd].
  rewrite (filter_ext (fun i => P i (nth (i - 0) v d)) (fun i => P i (nth i v d)))
    by (intro i; now rewrite Nat.sub_0_r).
  apply map_ext. intro i. now rewrite Nat.sub_0_r.
Qed.

End Indexed.

Lemma filter_seq_sorted (f : nat -> bool) (s n : nat) :
  StronglySorted lt (filter f (seq s n)).
Proof.
  revert s. induction n as [|n IH]; intro s; simpl; [constructor|].
  destruct (f s); [|apply IH].
  constructor; [apply IH|].
  apply Forall_forall. intros i Hi. apply filter_In in Hi.
  destruct Hi as [Hi _]. apply in_seq in Hi. lia.
Qed.

Lemma StronglySorted_lt_nth (ks : list nat) (i j ki kj : nat) :
  StronglySorted lt ks -> nth_error ks i = Some ki -> nth_error ks j = Some kj ->
  i <> j -> ki <> kj.
Proof.
  intro Hs. revert i j. induction Hs as [|k ks Hs IH Hall]; intros i j Hi Hj Hne.
  - now destruct i.
  - rewrite Forall_forall in Hall.
    destruct i as [|i], j as [|j]; simpl in Hi, Hj; try congruence.
    + injection Hi as <-. apply nth_error_In, Hall in Hj. lia.
    + injection Hj as <-. apply nth_error_In, Hall in Hi. lia.
    + apply (IH i j); auto.
Qed.

Lemma validSize_iff (b : Box) :
  validSize b = true <-> MIN_DIM <= l b /\ MIN_DIM <= h b /\ MIN_DIM <= w b.
Proof.
  unfold validSize. split.
  - intro H. bool_to_prop. lia.
  - intros (? & ? & ?).
    repeat (apply andb_true_iff; split); rewrite Z.geb_leb; apply Z.leb_le; lia.
Qed.

Lemma isContained_iff (v : list Box) (i : nat) (bi : Box) :
  isContained v i bi = true <->
  exists j bj, j <> i /\ nth_error v j = Some bj /\ inside bj bi.
Proof.
  unfold isContained. rewrite existsb_exists. split.
  - intros ([j bj] & Hin & Hc). cbn [fst snd] in Hc. bool_to_prop.
    exists j, bj. apply indexed_In in Hin. apply contains_iff in H0.
    apply Nat.eqb_neq in H. auto.
  - intros (j & bj & Hne & Hn & Hins). exists (j, bj). split.
    + now apply indexed_In.
    + cbn [fst snd]. apply andb_true_iff. split.
      * apply negb_true_iff, Nat.eqb_neq. auto.
      * now apply contains_iff.
Qed.

(** The indices kept by the containment pass. *)
Lemma cleanupSpaces_kept (spaces : list Box) :
  cleanupSpaces spaces =
  map (fun i => nth i (sizeSurvivors spaces) noBox)
      (filter (fun i => negb (isContained (sizeSurvivors spaces) i
                                (nth i (sizeSurvivors spaces) noBox)))
              (seq 0 (List.length (sizeSurvivors spaces)))).
Proof.
  unfold cleanupSpaces. fold (sizeSurvivors spaces).
  apply (filter_indexed
           (fun i b => negb (isContained (sizeSurvivors spaces) i b)) noBox).
Qed.

(** C6. [cleanupSpaces] first keeps the boxes whose three extents are at
    least 50 (the survivors, a rearrangement of the qualifying input boxes),
    then keeps, in order, exactly the survivors that lie inside no survivor
    held at another index.  Every box of the result is an input box with all
    extents at least 50, and no box of the result lies inside another box of
    the result. *)
Theorem cleanupSpaces_spec (spaces : list Box) :
  MIN_DIM = 50 /\
  Permutation (sizeSurvivors spaces) (filter validSize spaces) /\
  (forall b, In b (sizeSurvivors spaces) <->
             In b spaces /\ 50 <= l b /\ 50 <= h b /\ 50 <= w b) /\
  (exists keptIdx : list nat,
     StronglySorted lt keptIdx /\
     (forall i, In i keptIdx <->
                (i < List.length (sizeSurvivors spaces))%nat /\
                ~ containedElsewhere (sizeSurvivors spaces) i) /\
     cleanupSpaces spaces = map (fun i => nth i (sizeSurvivors spaces) noBox) keptIdx) /\
  (forall b, In b (cleanupSpaces spaces) ->
             In b spaces /\ 50 <= l b /\ 50 <= h b /\ 50 <= w b) /\
  noneInsideAnother (cleanupSpaces spaces).
Proof.
  set (v := sizeSurvivors spaces).
  set (keep := fun i => negb (isContained v i (nth i v noBox))).
  assert (Hperm : Permutation v (filter validSize spaces)).
  { apply filter_perm, stableSort_perm. }
  assert (Hin : forall b, In b v <-> In b spaces /\ 50 <= l b /\ 50 <= h b /\ 50 <= w b).
  { intro b. split.
    - intro H. apply (Permutation_in _ Hperm), filter_In in H.
      destruct H as [H Hs]. apply validSize_iff in Hs. unfold MIN_DIM in Hs. tauto.
    - intros [H Hs]. apply (Permutation_in _ (Permutation_sym Hperm)), filter_In.
      split; [exact H|]. apply validSize_iff. unfold MIN_DIM. tauto. }
  assert (Hkeep : forall i, In i (filter keep (seq 0 (List.length v))) <->
                            (i < List.length v)%nat /\ ~ containedElsewhere v i).
  { intro i. rewrite filter_In, in_seq. unfold keep, containedElsewhere.
    rewrite negb_true_iff, <- not_true_iff_false, isContained_iff.
    split; intros [Hlt Hno]; (split; [lia|]).
    - intros (j & bi & bj & Hne & Hi & Hj & Hins). apply Hno.
      exists j, bj. rewrite (nth_error_nth _ _ _ Hi). auto.
    - intros (j & bj & Hne & Hj & Hins). apply Hno.
      exists j, (nth i v noBox), bj.
      split; [exact Hne|]. split; [apply nth_error_nth'; lia|]. split; assumption. }
  assert (Hres : cleanupSpaces spaces =
                 map (fun i => nth i v noBox) (filter keep (seq 0 (List.length v)))).
  { apply cleanupSpaces_kept. }
  split; [reflexivity|]. split; [exact Hperm|]. split; [exact Hin|].
  split; [|split].
  - exists (filter keep (seq 0 (List.length v))).
    split; [apply filter_seq_sorted|]. split; [exact Hkeep | exact Hres].
  - intros b Hb. rewrite Hres in Hb. apply in_map_iff in Hb.
    destruct Hb as (i & <- & Hi). apply Hkeep in Hi. destruct Hi as [Hlt _].
    apply Hin. apply nth_In. exact Hlt.
  - intros i j a b Hne Hi Hj Hins. rewrite Hres in Hi, Hj.
    rewrite nth_error_map in Hi, Hj.
    destruct (nth_error (filter keep (seq 0 (List.length v))) i) as [ki|] eqn:Eki;
      [|discriminate].
    destruct (nth_error (filter keep (seq 0 (List.length v))) j) as [kj|] eqn:Ekj;
      [|discriminate].
    injection Hi as <-. injection Hj as <-.
    pose proof (StronglySorted_lt_nth _ _ _ _ _
                  (filter_seq_sorted keep 0 (List.length v)) Eki Ekj Hne) as Hk.
    pose proof (proj1 (Hkeep ki) (nth_error_In _ _ Eki)) as [Hlti Hnoi].
    pose proof (proj1 (Hkeep kj) (nth_error_In _ _ Ekj)) as [Hltj _].
    apply Hnoi. exists kj, (nth ki v noBox), (nth kj v noBox).
    split; [auto|]. split; [now apply nth_error_nth'|].
    split; [now apply nth_error_nth' | exact Hins].
Qed.

(** * Placement scorer (C4) *)

Lemma considerSpace_pick (item : CargoItem) (i : nat) (space : Box) (best : Best) :
  considerSpace item i space best = fold_left pick (candidatesAt item i space) best.
Proof.
  unfold considerSpace, candidatesAt, pick, bestOf.
  destruct (fitsUnrotated item space);
    destruct (negb (length (dimensions item) =? width (dimensions item)));
    destruct (fitsRotated item space); reflexivity.
Qed.

Lemma scanSpaces_pick (item : CargoItem) (spaces : list Box) (i : nat) (best : Best) :
  scanSpaces item spaces i best = fold_left pick (candidatesFrom item spaces i) best.
Proof.
  revert i best. induction spaces as [|space rest IH]; intros i best; simpl.
  - reflexivity.
  - now rewrite IH, considerSpace_pick, fold_left_app.
Qed.

Lemma fold_pick_firstLowest (cands : list Candidate) :
  (cands = [] /\ fold_left pick cands initBest = initBest) \/
  (exists c, firstLowest cands c /\ fold_left pick cands initBest = bestOf c).
Proof.
  induction cands as [|c cs IH] using rev_ind.
  - left. split; reflexivity.
  - right. rewrite fold_left_app. simpl.
    destruct IH as [[-> ->] | (m & (before & after & -> & Hb & Ha) & ->)].
    + exists c. split; [|reflexivity].
      exists [], []. split; [reflexivity|]. split; intros c' [].
    + unfold pick. cbn [bestOf bestScore scoreBelow].
      destruct (Z.ltb_spec (candScore c) (candScore m)) as [Hlt | Hge].
      * exists c. split; [|reflexivity].
        exists (before ++ m :: after), []. split; [reflexivity|].
        split; [|intros c' []].
        intros c' Hin. apply in_app_or in Hin.
        destruct Hin as [Hin | [<- | Hin]].
        -- specialize (Hb c' Hin). lia.
        -- exact Hlt.
        -- specialize (Ha c' Hin). lia.
      * exists m. split; [|reflexivity].
        exists before, (after ++ [c]). split.
        -- now rewrite <- app_assoc.
        -- split; [exact Hb|].
           intros c' Hin. apply in_app_or in Hin.
           destruct Hin as [Hin | [<- | []]]; [now apply Ha | exact Hge].
Qed.

Lemma fitsUnrotated_iff (item : CargoItem) (space : Box) :
  fitsUnrotated item space = true <-> orientationFits item false space.
Proof.
  unfold fitsUnrotated, orientationFits. split.
  - intro H. bool_to_prop. lia.
  - intros (? & ? & ?). repeat (apply andb_true_iff; split); apply Z.leb_le; lia.
Qed.

Lemma fitsRotated_iff (item : CargoItem) (space : Box) :
  negb (length (dimensions item) =? width (dimensions item)) && fitsRotated item space = true
  <-> orientationFits item true space.
Proof.
  unfold fitsRotated, orientationFits. split.
  - intro H. bool_to_prop. repeat split; assumption.
  - intros (? & ? & ? & ?). apply andb_true_iff. split.
    + now apply negb_true_iff, Z.eqb_neq.
    + repeat (apply andb_true_iff; split); apply Z.leb_le; lia.
Qed.

Lemma candidatesAt_In (item : CargoItem) (i : nat) (space : Box) (c : Candidate) :
  In c (candidatesAt item i space) <->
  candIndex c = i /\ orientationFits item (candRotated c) space /\
  candScore c = spaceScore space.
Proof.
  pose proof (fitsUnrotated_iff item space) as HU.
  pose proof (fitsRotated_iff item space) as HR.
  unfold candidatesAt. rewrite in_app_iff. split.
  - intros [H | H].
    + destruct (fitsUnrotated item space); [|destruct H].
      destruct H as [<- | []]. cbn [candIndex candRotated candScore].
      split; [reflexivity|]. split; [now apply HU | reflexivity].
    + destruct (negb (length (dimensions item) =? width (dimensions item))
                && fitsRotated item space); [|destruct H].
      destruct H as [<- | []]. cbn [candIndex candRotated candScore].
      split; [reflexivity|]. split; [now apply HR | reflexivity].
  - destruct c as [ci cr cs]. cbn [candIndex candRotated candScore].
    intros (-> & Hfit & ->). destruct cr.
    + right. apply HR in Hfit. rewrite Hfit. now left.
    + left. apply HU in Hfit. rewrite Hfit. now left.
Qed.

Lemma candidatesFrom_In (item : CargoItem) (spaces : list Box) (i : nat) (c : Candidate) :
  In c (candidatesFrom item spaces i) <->
  (i <= candIndex c)%nat /\
  exists space, nth_error spaces (candIndex c - i) = Some space /\
                orientationFits item (candRotated c) space /\
                candScore c = spaceScore space.
Proof.
  revert i. induction spaces as [|space rest IH]; intro i; simpl.
  - split; [intros [] | intros (_ & s & H & _)]. now destruct (candIndex c - i)%nat.
  - rewrite in_app_iff, candidatesAt_In, IH. split.
    + intros [(<- & Hfit & Hs) | (Hle & s & Hn & Hfit & Hs)].
      * split; [lia|]. exists space. rewrite Nat.sub_diag. auto.
      * split; [lia|]. exists s.
        replace (candIndex c - i)%nat with (S (candIndex c - S i)) by lia. auto.
    + intros (Hle & s & Hn & Hfit & Hs).
      destruct (Nat.eq_dec (candIndex c) i) as [E | Hne].
      * left. rewrite E, Nat.sub_diag in Hn. simpl in Hn.
        injection Hn as <-. auto.
      * right. split; [lia|]. exists s.
        replace (candIndex c - i)%nat with (S (candIndex c - S i)) in Hn by lia. auto.
Qed.

Lemma candidatesFrom_sorted (item : CargoItem) (spaces : list Box) (i : nat) :
  StronglySorted candidateBefore (candidatesFrom item spaces i).
Proof.
  revert i. induction spaces as [|space rest IH]; intro i; simpl; [constructor|].
  assert (Hlater : forall r, Forall (candidateBefore (mkCandidate i r (spaceScore space)))
                                    (candidatesFrom item rest (S i))).
  { intro r. apply Forall_forall. intros c Hc. apply candidatesFrom_In in Hc.
    left. simpl. lia. }
  unfold candidatesAt.
  destruct (fitsUnrotated item space);
    destruct (negb (length (dimensions item) =? width (dimensions item))
              && fitsRotated item space); simpl.
  - apply SSorted_cons; [apply SSorted_cons; [apply IH | apply Hlater]|].
    apply Forall_cons; [|apply Hlater]. right. simpl. auto.
  - apply SSorted_cons; [apply IH | apply Hlater].
  - apply SSorted_cons; [apply IH | apply Hlater].
  - apply IH.
Qed.

(** C4. The candidates of the scorer are exactly the (space, orientation)
    pairs in which each extent of the item fits the corresponding extent of
    the space, the rotated orientation being considered only when length and
    width differ; each carries the score [y * 1000000 + z * 1000 + x] of its
    space; they are visited in free-space-list order, unrotated before
    rotated.  The scan returns the first candidate with the lowest score, and
    keeps index -1 when there is none. *)
Theorem placementScorer_spec (item : CargoItem) (spaces : list Box) :
  (forall c, In c (candidates item spaces) <-> isCandidate item spaces c) /\
  StronglySorted candidateBefore (candidates item spaces) /\
  ((candidates item spaces = [] /\ scanSpaces item spaces 0 initBest = initBest /\
    bestSpaceIndex initBest = -1) \/
   (exists c, firstLowest (candidates item spaces) c /\
              scanSpaces item spaces 0 initBest = bestOf c)).
Proof.
  split; [|split].
  - intro c. unfold candidates, isCandidate. rewrite candidatesFrom_In, Nat.sub_0_r.
    unfold spaceScore. split.
    + intros [_ H]. exact H.
    + intro H. split; [lia | exact H].
  - apply candidatesFrom_sorted.
  - rewrite scanSpaces_pick. fold (candidates item spaces).
    destruct (fold_pick_firstLowest (candidates item spaces)) as [[E1 E2] | H].
    + left. auto.
    + right. exact H.
Qed.

(** * Free-space invariant of a trial (C10) *)

Lemma withinContainer_inside (container : Dimensions) (b : Box) :
  withinContainer container b <-> inside (containerBox container) b.
Proof. unfold withinContainer, inside, containerBox. cbn [x y z l h w]. lia. Qed.

(** Every fragment of a split lies in the space it comes from, misses the
    placed box, and keeps positive extents. *)
Lemma splitSpace_fragment (p fs f : Box) :
  In f (splitSpace p fs) ->
  inside fs f /\ disjointBoxes f p /\ (positiveExtents fs -> positiveExtents f).
Proof.
  intro Hin. destruct (splitSpace_replacement p fs) as [[Hi E] | [Hn E]];
    rewrite E in Hin.
  - apply fiveSlices_In in Hin.
    destruct Hi as [[Hx1 Hx2] [[Hy1 Hy2] [Hz1 Hz2]]].
    unfold inside, disjointBoxes, intersects, positiveExtents.
    destruct Hin as [[-> Hp] | [[-> Hp] | [[-> Hp] | [[-> Hp] | [-> Hp]]]]];
      cbn [rightSlice leftSlice aboveSlice frontSlice behindSlice x y z l h w] in *;
      lia.
  - destruct Hin as [<- | []].
    split; [apply inside_refl|]. split; [exact Hn | auto].
Qed.

Lemma splitSpaces_fragment (spaces : list Box) (p f : Box) :
  In f (splitSpaces spaces p) ->
  exists fs, In fs spaces /\ inside fs f /\ disjointBoxes f p /\
             (positiveExtents fs -> positiveExtents f).
Proof.
  unfold splitSpaces. rewrite in_flat_map. intros (fs & Hfs & Hf).
  exists fs. split; [exact Hfs|]. now apply splitSpace_fragment.
Qed.

Lemma cleanupSpaces_In (spaces : list Box) (b : Box) :
  In b (cleanupSpaces spaces) -> In b spaces /\ validSize b = true.
Proof.
  unfold cleanupSpaces. rewrite in_map_iff. intros ([i b'] & <- & Hin).
  apply filter_In in Hin. destruct Hin as [Hin _].
  apply indexed_In, nth_error_In, filter_In in Hin. destruct Hin as [Hin Hs].
  split; [|exact Hs].
  unfold sortSpaces in Hin. apply (Permutation_in _ (stableSort_perm _ spaces)) in Hin.
  exact Hin.
Qed.

Lemma goodSpaces_initial (container : Dimensions) :
  positiveDimensions container -> goodSpaces container (freeSpaces (initialState container)).
Proof.
  intros (Hl & Hw & Hh). constructor; [|constructor].
  unfold goodSpace, withinContainer, positiveExtents. cbn [x y z l h w]. lia.
Qed.

Lemma goodSpaces_split (container : Dimensions) (spaces : list Box) (p : Box) :
  goodSpaces container spaces -> goodSpaces container (splitSpaces spaces p).
Proof.
  unfold goodSpaces. rewrite !Forall_forall. intros Hgood f Hf.
  apply splitSpaces_fragment in Hf. destruct Hf as (fs & Hfs & Hins & _ & Hpos).
  destruct (Hgood fs Hfs) as [Hw Hp]. split; [|auto].
  apply withinContainer_inside. apply withinContainer_inside in Hw.
  now apply inside_trans with fs.
Qed.

Lemma goodSpaces_cleanup (container : Dimensions) (spaces : list Box) :
  goodSpaces container spaces -> goodSpaces container (cleanupSpaces spaces).
Proof.
  unfold goodSpaces. rewrite !Forall_forall. intros Hgood b Hb.
  apply cleanupSpaces_In in Hb. now apply Hgood.
Qed.

Lemma goodSpaces_packItem (container : Dimensions) (st : TrialState) (item : CargoItem) :
  goodSpaces container (freeSpaces st) ->
  goodSpaces container (freeSpaces (packItem st item)).
Proof.
  intro Hgood. unfold packItem.
  destruct (negb (bestSpaceIndex (scanSpaces item (freeSpaces st) 0 initBest) =? -1));
    cbn [freeSpaces].
  - now apply goodSpaces_cleanup, goodSpaces_split.
  - exact Hgood.
Qed.

Lemma goodSpaces_loop (container : Dimensions) (itemsToPack : list CargoItem)
    (st : TrialState) :
  goodSpaces container (freeSpaces st) ->
  goodSpaces container (freeSpaces (fold_left packItem itemsToPack st)).
Proof.
  revert st. induction itemsToPack as [|item rest IH]; intros st Hgood; simpl.
  - exact Hgood.
  - now apply IH, goodSpaces_packItem.
Qed.

(** C10. For a container with positive dimensions, every box of the
    free-space list has positive extents and lies in the container, at every
    point of every trial: the initial whole-container box does, the split
    step and the cleanup preserve it, hence the list has the property after
    any number of items of the sorted list have been processed. *)
Theorem freeSpaces_within_container (container : Dimensions)
    (Hpos : positiveDimensions container) :
  goodSpaces container (freeSpaces (initialState container)) /\
  (forall spaces p, goodSpaces container spaces ->
                    goodSpaces container (splitSpaces spaces p)) /\
  (forall spaces, goodSpaces container spaces ->
                  goodSpaces container (cleanupSpaces spaces)) /\
  (forall (sortItems : SortStrategy -> Z -> list CargoItem -> list CargoItem)
          (inputItems : list CargoItem) (strategy : SortStrategy) (randomSeed : Z)
          (done : nat),
     goodSpaces container
       (freeSpaces (runTrialLoop (firstn done (sortItems strategy randomSeed inputItems))
                                 container))).
Proof.
  split; [now apply goodSpaces_initial|].
  split; [intros spaces p; apply goodSpaces_split|].
  split; [intros spaces; apply goodSpaces_cleanup|].
  intros. apply goodSpaces_loop. now apply goodSpaces_initial.
Qed.

(** * Staging arranger (C9) *)

Lemma stagingLoop_map (xs : list CargoItem) (cx cz mz : Z) :
  Forall2 (fun i o => o = withPosition i (position o) true /\ pos1 (position o) = 0)
          xs (stagingLoop xs cx cz mz).
Proof.
  revert cx cz mz. induction xs as [|i rest IH]; intros cx cz mz; simpl.
  - constructor.
  - constructor; [|apply IH]. split; reflexivity.
Qed.

(** With a non-negative row depth, nothing is staged in front of the
    current row. *)
Lemma stagingLoop_depth (xs : list CargoItem) (cx cz mz : Z) (o : CargoItem) :
  0 <= mz -> In o (stagingLoop xs cx cz mz) -> cz <= pos2 (position o).
Proof.
  revert cx cz mz. induction xs as [|i rest IH]; intros cx cz mz Hmz; simpl.
  - intros [].
  - destruct (cx + length (dimensions i) >? stagingWidthLimit);
      (intros [<- | Hin];
       [cbn [withPosition position pos2 snd]; unfold spacing; lia
       |apply IH in Hin; [unfold spacing in *; lia | lia]]).
Qed.

(** Where the items still to come are staged, relative to the loop state:
    further right in the current row, or behind it. *)
Lemma stagingLoop_region (xs : list CargoItem) (cx cz mz : Z) (o : CargoItem) :
  allPositive xs -> In o (stagingLoop xs cx cz mz) ->
  (pos2 (position o) = cz /\ cx <= pos0 (position o)) \/
  cz + mz + spacing <= pos2 (position o).
Proof.
  revert cx cz mz. induction xs as [|i rest IH]; intros cx cz mz Hpos; simpl.
  - intros [].
  - inversion Hpos as [|? ? [Hl _] Hrest]; subst.
    destruct (cx + length (dimensions i) >? stagingWidthLimit);
      (intros [<- | Hin];
       [cbn [withPosition position pos0 pos2 fst snd]; lia
       |apply IH in Hin; [unfold spacing in *; lia | exact Hrest]]).
Qed.

Lemma stagingLoop_separated (xs : list CargoItem) (cx cz mz : Z) :
  allPositive xs -> ForallOrdPairs shelfSeparated (stagingLoop xs cx cz mz).
Proof.
  revert cx cz mz. induction xs as [|i rest IH]; intros cx cz mz Hpos; simpl.
  - constructor.
  - inversion Hpos as [|? ? [Hl _] Hrest]; subst.
    constructor; [|now apply IH].
    apply Forall_forall. intros o Hin.
    unfold shelfSeparated. cbn [withPosition position dimensions pos0 pos2 fst snd].
    destruct (cx + length (dimensions i) >? stagingWidthLimit);
      (apply stagingLoop_region in Hin; [unfold spacing in *; lia | exact Hrest]).
Qed.

(** The first item of the loop, from the state in which it is entered. *)
Lemma stagingLoop_first (xs : list CargoItem) (cx cz mz : Z) (a : CargoItem)
    (rest : list CargoItem) :
  stagingLoop xs cx cz mz = a :: rest ->
  (cx + length (dimensions a) <= stagingWidthLimit /\ position a = (cx, 0, cz)) \/
  (cx + length (dimensions a) > stagingWidthLimit /\
   position a = (0, 0, cz + (mz + spacing))).
Proof.
  destruct xs as [|i xs]; simpl; [discriminate|].
  intro E. injection E as <- _. cbn [withPosition position dimensions].
  rewrite Z.gtb_ltb.
  destruct (Z.ltb_spec stagingWidthLimit (cx + length (dimensions i))).
  - right. split; [lia | reflexivity].
  - left. split; [lia | reflexivity].
Qed.

(** Consecutive items, the depth of the current row being the larger of the
    state's [mz] (for a row begun earlier) and the widths seen since. *)
Lemma stagingLoop_next (xs : list CargoItem) (cx cz mz : Z)
    (pre : list CargoItem) (a b : CargoItem) (post : list CargoItem) :
  0 <= mz ->
  stagingLoop xs cx cz mz = pre ++ a :: b :: post ->
  let nextX := pos0 (position a) + (length (dimensions a) + spacing) in
  let depth := Z.max (if pos2 (position a) =? cz then mz else 0)
                     (rowDepth (pre ++ [a]) (pos2 (position a))) in
  (nextX + length (dimensions b) <= stagingWidthLimit /\
   position b = (nextX, 0, pos2 (position a)))
  \/
  (nextX + length (dimensions b) > stagingWidthLimit /\
   position b = (0, 0, pos2 (position a) + (depth + spacing))).
Proof.
  revert cx cz mz pre. induction xs as [|i rest IH]; intros cx cz mz pre Hmz E.
  - destruct pre; discriminate.
  - cbn [stagingLoop] in E. cbv zeta in E.
    set (wrap := cx + length (dimensions i) >? stagingWidthLimit) in *.
    set (cx' := if wrap then 0 else cx) in *.
    set (cz' := if wrap then cz + (mz + spacing) else cz) in *.
    set (mz' := if wrap then 0 else mz) in *.
    set (o := withPosition i (cx', 0, cz') true) in *.
    assert (Hmz' : 0 <= Z.max mz' (width (dimensions i))).
    { unfold mz'. destruct wrap; lia. }
    assert (Hrow : Z.max (if cz' =? cz then mz else 0) (Z.max (width (dimensions i)) 0)
                   = Z.max mz' (width (dimensions i))).
    { unfold cz', mz'. destruct wrap.
      - replace (cz + (mz + spacing) =? cz) with false
          by (symmetry; apply Z.eqb_neq; unfold spacing; lia). lia.
      - rewrite Z.eqb_refl. lia. }
    destruct pre as [|p pre].
    + (* [a] is the item just staged, [b] the first of the remaining loop *)
      cbn [app] in E. injection E as Ea Eb. subst a.
      apply stagingLoop_first in Eb.
      cbv zeta. cbn [app rowDepth].
      change (pos2 (position o)) with cz'. change (pos0 (position o)) with cx'.
      change (dimensions o) with (dimensions i).
      rewrite (Z.eqb_refl cz'), Hrow. exact Eb.
    + (* both lie in the remaining loop *)
      cbn [app] in E. injection E as Ep Erest. subst p.
      pose proof (IH _ _ _ _ Hmz' Erest) as Hnext. cbv zeta in Hnext |- *.
      assert (Ha : cz' <= pos2 (position a)).
      { apply (stagingLoop_depth rest (cx' + (length (dimensions i) + spacing)) cz'
                 (Z.max mz' (width (dimensions i)))); [exact Hmz'|].
        rewrite Erest. apply in_or_app. right. now left. }
      assert (Hdepth :
        Z.max (if pos2 (position a) =? cz then mz else 0)
              (rowDepth ((o :: pre) ++ [a]) (pos2 (position a))) =
        Z.max (if pos2 (position a) =? cz' then Z.max mz' (width (dimensions i)) else 0)
              (rowDepth (pre ++ [a]) (pos2 (position a)))).
      { cbn [app rowDepth]. change (pos2 (position o)) with cz'.
        change (dimensions o) with (dimensions i).
        unfold cz', mz' in *. destruct wrap.
        - replace (pos2 (position a) =? cz) with false
            by (symmetry; apply Z.eqb_neq; unfold spacing in *; lia).
          rewrite (Z.eqb_sym (cz + (mz + spacing))).
          destruct (pos2 (position a) =? cz + (mz + spacing)); lia.
        - rewrite (Z.eqb_sym cz). destruct (pos2 (position a) =? cz); lia. }
      rewrite Hdepth. exact Hnext.
Qed.

Lemma separated_not_intersect (a b : CargoItem) :
  shelfSeparated a b -> ~ boxesIntersect a b /\ ~ boxesIntersect b a.
Proof.
  unfold shelfSeparated, boxesIntersect, intersects, itemBox, spacing.
  cbn [x y z l h w]. lia.
Qed.

Lemma intersect_of_overlap (a b : CargoItem) : boxesOverlap a b -> boxesIntersect a b.
Proof. apply overlapsBeyond_intersects. Qed.

(** From ordered pairs to pairs of distinct indices, for a relation whose
    failure is symmetric. *)
Lemma ordPairs_apart (R T : CargoItem -> CargoItem -> Prop) (xs : list CargoItem) :
  (forall a b, R a b -> ~ T a b /\ ~ T b a) ->
  ForallOrdPairs R xs -> pairwiseApart T xs.
Proof.
  intros HRT Hfop. induction Hfop as [|a rest Hall _ IH].
  - intros i j a b _ Hi. now destruct i.
  - rewrite Forall_forall in Hall.
    intros i j u v Hne Hi Hj.
    destruct i as [|i], j as [|j]; cbn [nth_error] in Hi, Hj; try congruence.
    + injection Hi as <-. apply nth_error_In in Hj.
      now destruct (HRT _ _ (Hall _ Hj)).
    + injection Hj as <-. apply nth_error_In in Hi.
      now destruct (HRT _ _ (Hall _ Hi)).
    + apply (IH i j); auto.
Qed.

Lemma rowDepth_nonneg (row : list CargoItem) (zc : Z) : 0 <= rowDepth row zc.
Proof.
  induction row as [|o rest IH]; simpl; [lia|].
  destruct (pos2 (position o) =? zc); lia.
Qed.

Lemma arrangeStaging_separated (xs : list CargoItem) (container : Dimensions) :
  allPositive xs -> ForallOrdPairs shelfSeparated (arrangeStaging xs container).
Proof. apply stagingLoop_separated. Qed.

Lemma arrangeStaging_depth (xs : list CargoItem) (container : Dimensions) (o : CargoItem) :
  In o (arrangeStaging xs container) -> width container + 1500 <= pos2 (position o).
Proof. apply stagingLoop_depth. lia. Qed.

(** C9. [arrangeStaging] changes nothing of an item but its position and
    its flag: each staged item stands on the floor (y = 0), at least 1500
    behind the far z-face of the container, and is flagged valid.  The first
    item opens the shelf at x = 0; each following item stands one spacing
    (100) to the right of its predecessor in the same row, unless its length
    would pass the row-width limit (15000) there, in which case it opens a
    new row at x = 0, one spacing behind the deepest item of the row just
    left.  When the items have positive dimensions, any two staged boxes are
    a full spacing apart along x or z: they neither intersect nor overlap. *)
Theorem arrangeStaging_spec (xs : list CargoItem) (container : Dimensions) :
  Forall2 (fun i o => o = withPosition i (position o) true)
          xs (arrangeStaging xs container) /\
  (forall o, In o (arrangeStaging xs container) ->
     isValid o = true /\ pos1 (position o) = 0 /\
     width container + 1500 <= pos2 (position o)) /\
  (forall a rest, arrangeStaging xs container = a :: rest -> shelfFirst container a) /\
  (forall pre a b post, arrangeStaging xs container = pre ++ a :: b :: post ->
     shelfNext (pre ++ [a]) a b) /\
  (allPositive xs ->
     ForallOrdPairs shelfSeparated (arrangeStaging xs container) /\
     pairwiseApart boxesIntersect (arrangeStaging xs container) /\
     pairwiseApart boxesOverlap (arrangeStaging xs container)).
Proof.
  pose proof (stagingLoop_map xs 0 (stagingZStart container) 0) as Hmap.
  fold (arrangeStaging xs container) in Hmap.
  split; [|split; [|split; [|split]]].
  - eapply Forall2_impl; [|exact Hmap]. now intros i o [H _].
  - assert (Hall : Forall (fun o => isValid o = true /\ pos1 (position o) = 0)
                          (arrangeStaging xs container)).
    { induction Hmap as [|i o' ? ? [E1 E2] _ IH]; constructor; [|exact IH].
      split; [rewrite E1; reflexivity | exact E2]. }
    rewrite Forall_forall in Hall. intros o Hin.
    destruct (Hall o Hin) as [Hv Hy]. split; [exact Hv|]. split; [exact Hy|].
    now apply (arrangeStaging_depth xs).
  - intros a rest E.
    apply (stagingLoop_first xs 0 (stagingZStart container) 0) in E. unfold shelfFirst.
    destruct E as [[H1 H2] | [H1 H2]]; [left | right]; (split; [lia | exact H2]).
  - intros pre a b post E.
    apply (stagingLoop_next xs 0 (stagingZStart container) 0) in E; [|lia].
    cbv zeta in E. unfold shelfNext.
    replace (Z.max (if pos2 (position a) =? stagingZStart container then 0 else 0)
                   (rowDepth (pre ++ [a]) (pos2 (position a))))
      with (rowDepth (pre ++ [a]) (pos2 (position a))) in E.
    + exact E.
    + pose proof (rowDepth_nonneg (pre ++ [a]) (pos2 (position a))).
      destruct (pos2 (position a) =? stagingZStart container); lia.
  - intro Hpos. pose proof (arrangeStaging_separated xs container Hpos) as Hsep.
    split; [exact Hsep|]. split.
    + apply (ordPairs_apart shelfSeparated); [|exact Hsep].
      apply separated_not_intersect.
    + apply (ordPairs_apart shelfSeparated); [|exact Hsep].
      intros a b Hs. destruct (separated_not_intersect a b Hs) as [H1 H2].
      split; intro Ho; [apply H1 | apply H2]; now apply intersect_of_overlap.
Qed.

(** * The trial loop keeps every item (C2) *)

Lemma packItem_appends (st : TrialState) (item : CargoItem) :
  exists o, placedItems (packItem st item) = placedItems st ++ [o] /\
            cargoKey o = cargoKey item /\
            (isValid o = false -> dimensions o = dimensions item).
Proof.
  unfold packItem.
  destruct (negb (bestSpaceIndex (scanSpaces item (freeSpaces st) 0 initBest) =? -1)).
  - eexists. split; [reflexivity|]. split; [|discriminate].
    destruct (bestRotation (scanSpaces item (freeSpaces st) 0 initBest)).
    + unfold cargoKey. cbn [withPlacement id drawingNo subDrawingNo color weight
        selected subItems isGroup dimensions length width height].
      now rewrite Z.min_comm, Z.max_comm.
    + reflexivity.
  - eexists. split; [reflexivity|]. split; reflexivity.
Qed.

Lemma trialLoop_keys (xs : list CargoItem) (st : TrialState) :
  map cargoKey (placedItems (fold_left packItem xs st)) =
  map cargoKey (placedItems st) ++ map cargoKey xs.
Proof.
  revert st. induction xs as [|item rest IH]; intro st; simpl.
  - now rewrite app_nil_r.
  - rewrite IH. destruct (packItem_appends st item) as (o & -> & Hk & _).
    now rewrite map_app, <- app_assoc, <- Hk.
Qed.

Lemma stagingLoop_keys (xs : list CargoItem) (cx cz mz : Z) :
  map cargoKey (stagingLoop xs cx cz mz) = map cargoKey xs.
Proof.
  revert cx cz mz. induction xs as [|i rest IH]; intros cx cz mz; simpl.
  - reflexivity.
  - now rewrite IH.
Qed.

Lemma filter_split_perm {A : Type} (f : A -> bool) (xs : list A) :
  Permutation (filter f xs ++ filter (fun a => negb (f a)) xs) xs.
Proof.
  induction xs as [|a rest IH]; simpl.
  - apply perm_nil.
  - destruct (f a); simpl.
    + now apply perm_skip.
    + apply Permutation_sym, Permutation_cons_app, Permutation_sym, IH.
Qed.

Lemma finishPack_keys (r : TrialResult) (container : Dimensions) :
  Permutation (map cargoKey (finishPack r container)) (map cargoKey (items r)).
Proof.
  unfold finishPack, arrangeStaging.
  rewrite map_app, stagingLoop_keys, <- map_app.
  apply Permutation_map, filter_split_perm.
Qed.

Lemma runPackingTrial_keys
    (sortItems : SortStrategy -> Z -> list CargoItem -> list CargoItem)
    (inputItems : list CargoItem) (container : Dimensions)
    (strategy : SortStrategy) (randomSeed : Z) :
  map cargoKey (items (runPackingTrial sortItems inputItems container strategy randomSeed))
  = map cargoKey (sortItems strategy randomSeed inputItems).
Proof.
  unfold runPackingTrial, runTrialLoop. cbn [items]. now rewrite trialLoop_keys.
Qed.

(** * Selection among the trials (C3) *)

Lemma bestOfTrials_firstGreatest (results : list TrialResult) :
  results <> [] ->
  exists winner, firstGreatest results winner /\ bestOfTrials results = Some winner.
Proof.
  unfold bestOfTrials.
  induction results as [|r rs IH] using rev_ind; [congruence|intros _].
  rewrite fold_left_app. cbn [fold_left].
  destruct rs as [|r0 rs0].
  - exists r. split; [|reflexivity].
    exists [], []. split; [reflexivity|]. split; intros r' [].
  - destruct IH as (m & (before & after & E & Hb & Ha) & ->); [discriminate|].
    rewrite E. cbn [keepBest]. rewrite Z.gtb_ltb.
    destruct (Z.ltb_spec (packedVolume m) (packedVolume r)) as [Hlt | Hge].
    + exists r. split; [|reflexivity].
      exists (before ++ m :: after), []. split; [reflexivity|].
      split; [|intros r' []].
      intros r' Hin. apply in_app_or in Hin.
      destruct Hin as [Hin | [<- | Hin]].
      * specialize (Hb r' Hin). lia.
      * exact Hlt.
      * specialize (Ha r' Hin). lia.
    + exists m. split; [|reflexivity].
      exists before, (after ++ [r]). split.
      * now rewrite <- app_assoc.
      * split; [exact Hb|].
        intros r' Hin. apply in_app_or in Hin.
        destruct Hin as [Hin | [<- | []]]; [now apply Ha | exact Hge].
Qed.

Lemma autoPack_winner
    (sortItems : SortStrategy -> Z -> list CargoItem -> list CargoItem)
    (inputItems : list CargoItem) (container : Dimensions) :
  exists winner,
    firstGreatest (trialResults sortItems inputItems container) winner /\
    autoPack sortItems inputItems container = finishPack winner container.
Proof.
  destruct (bestOfTrials_firstGreatest (trialResults sortItems inputItems container))
    as (winner & Hfirst & Hbest); [discriminate|].
  exists winner. split; [exact Hfirst|].
  unfold autoPack. now rewrite Hbest.
Qed.

Lemma firstGreatest_In (results : list TrialResult) (winner : TrialResult) :
  firstGreatest results winner -> In winner results.
Proof. intros (before & after & -> & _). apply in_or_app. right. now left. Qed.

Lemma trialResults_In
    (sortItems : SortStrategy -> Z -> list CargoItem -> list CargoItem)
    (inputItems : list CargoItem) (container : Dimensions) (r : TrialResult) :
  In r (trialResults sortItems inputItems container) ->
  exists strategy randomSeed,
    In (strategy, randomSeed) trials /\
    r = runPackingTrial sortItems inputItems container strategy randomSeed.
Proof.
  unfold trialResults. rewrite in_map_iff. intros ([s seed] & <- & Hin).
  exists s, seed. split; [exact Hin | reflexivity].
Qed.


Section Packing.

Variable sortItems : SortStrategy -> Z -> list CargoItem -> list CargoItem.
Hypothesis sortItems_rearranges : rearranges sortItems.


End Packing.

Lemma sortByStrategy_rearranges (mathSin : Z -> Q) : rearranges (sortByStrategy mathSin).
Proof. intros strategy randomSeed xs. apply stableSort_perm. Qed.

(** * Non-overlap of the packed and staged items (C1) *)

Section OrdPairs.
Context {A : Type}.

Lemma ordPairs_snoc (R : A -> A -> Prop) (xs : list A) (a : A) :
  ForallOrdPairs R xs -> Forall (fun b => R b a) xs -> ForallOrdPairs R (xs ++ [a]).
Proof.
  induction 1 as [|b rest Hall _ IH]; intro Hlast; simpl.
  - constructor; constructor.
  - inversion Hlast; subst. constructor; [|now apply IH].
    apply Forall_app. split; [exact Hall | now constructor].
Qed.

Lemma ordPairs_app (R : A -> A -> Prop) (xs ys : list A) :
  ForallOrdPairs R xs -> ForallOrdPairs R ys ->
  (forall a b, In a xs -> In b ys -> R a b) ->
  ForallOrdPairs R (xs ++ ys).
Proof.
  induction 1 as [|a rest Hall _ IH]; intros Hys Hcross; simpl.
  - exact Hys.
  - constructor.
    + apply Forall_app. split; [exact Hall|].
      apply Forall_forall. intros b Hb. apply Hcross; [now left | exact Hb].
    + apply IH; [exact Hys|]. intros u v Hu Hv. apply Hcross; [now right | exact Hv].
Qed.

Lemma ordPairs_impl (R T : A -> A -> Prop) (xs : list A) :
  (forall a b, R a b -> T a b) -> ForallOrdPairs R xs -> ForallOrdPairs T xs.
Proof.
  intros HRT. induction 1 as [|a rest Hall _ IH]; constructor; [|exact IH].
  eapply Forall_impl; [|exact Hall]. intros b. apply HRT.
Qed.

Lemma ordPairs_map {B : Type} (f : A -> B) (R : B -> B -> Prop) (xs : list A) :
  ForallOrdPairs R (map f xs) -> ForallOrdPairs (fun a b => R (f a) (f b)) xs.
Proof.
  induction xs as [|a rest IH]; simpl; intro H; [constructor|].
  inversion H as [|? ? Hall Hrest]; subst. constructor; [|now apply IH].
  rewrite Forall_forall in Hall. apply Forall_forall.
  intros b Hb. apply Hall. now apply in_map.
Qed.

End OrdPairs.

(** The scorer only answers with the index of a free space in which the
    item fits in the orientation it reports. *)
Lemma scanSpaces_index (item : CargoItem) (spaces : list Box) :
  bestSpaceIndex (scanSpaces item spaces 0 initBest) <> -1 ->
  exists space,
    nth_error spaces (Z.to_nat (bestSpaceIndex (scanSpaces item spaces 0 initBest)))
      = Some space /\
    orientationFits item (bestRotation (scanSpaces item spaces 0 initBest)) space.
Proof.
  rewrite scanSpaces_pick.
  destruct (fold_pick_firstLowest (candidatesFrom item spaces 0))
    as [[_ ->] | (c & (before & after & E & _) & ->)].
  - intro H. now contradiction H.
  - intros _. cbn [bestOf bestSpaceIndex bestRotation]. rewrite Nat2Z.id.
    assert (Hin : In c (candidatesFrom item spaces 0)).
    { rewrite E. apply in_or_app. right. now left. }
    apply candidatesFrom_In in Hin. destruct Hin as (_ & space & Hn & Hfit & _).
    rewrite Nat.sub_0_r in Hn. exists space. auto.
Qed.

Lemma placedBox_inside (item : CargoItem) (space : Box) (rotation : bool) :
  orientationFits item rotation space -> inside space (placedBoxOf item space rotation).
Proof.
  unfold orientationFits, inside, placedBoxOf.
  destruct rotation; cbn [x y z l h w]; lia.
Qed.

(** One step of the trial, seen on the free spaces and the boxes of the
    items placed so far. *)
Lemma packItem_cases (st : TrialState) (item : CargoItem) :
  (exists space rotation,
     In space (freeSpaces st) /\ orientationFits item rotation space /\
     freeSpaces (packItem st item) =
       cleanupSpaces (splitSpaces (freeSpaces st) (placedBoxOf item space rotation)) /\
     validBoxes (packItem st item) =
       validBoxes st ++ [placedBoxOf item space rotation])
  \/
  (freeSpaces (packItem st item) = freeSpaces st /\
   validBoxes (packItem st item) = validBoxes st).
Proof.
  unfold packItem.
  destruct (bestSpaceIndex (scanSpaces item (freeSpaces st) 0 initBest) =? -1) eqn:Hidx;
    cbn [negb].
  - right. split; [reflexivity|].
    unfold validBoxes. cbn [placedItems]. rewrite filter_app. cbn [filter withPosition isValid].
    now rewrite app_nil_r.
  - left. apply Z.eqb_neq in Hidx.
    destruct (scanSpaces_index item (freeSpaces st) Hidx) as (space & Hn & Hfit).
    exists space, (bestRotation (scanSpaces item (freeSpaces st) 0 initBest)).
    rewrite (nth_error_nth _ _ noBox Hn).
    split; [eapply nth_error_In, Hn|]. split; [exact Hfit|]. split; [reflexivity|].
    unfold validBoxes. cbn [placedItems]. rewrite filter_app, map_app.
    cbn [filter withPlacement isValid map]. f_equal. f_equal.
    destruct (bestRotation (scanSpaces item (freeSpaces st) 0 initBest)); reflexivity.
Qed.

Lemma trialInv_initial (container : Dimensions) : TrialInv container (initialState container).
Proof.
  constructor; cbn.
  - constructor; [apply inside_refl | constructor].
  - intros fs q _ [].
  - constructor.
  - constructor.
Qed.

Lemma trialInv_packItem (container : Dimensions) (st : TrialState) (item : CargoItem) :
  TrialInv container st -> TrialInv container (packItem st item).
Proof.
  intros [Hin Hfree Hdisj Hplaced].
  rewrite Forall_forall in Hin, Hplaced.
  destruct (packItem_cases st item)
    as [(space & rotation & Hspace & Hfit & Efree & Evalid) | [Efree Evalid]].
  - set (p := placedBoxOf item space rotation) in *.
    assert (Hp : inside space p) by now apply placedBox_inside.
    assert (Hfrag : forall f, In f (freeSpaces (packItem st item)) ->
              exists fs, In fs (freeSpaces st) /\ inside fs f /\ disjointBoxes f p).
    { intros f Hf. rewrite Efree in Hf. apply cleanupSpaces_In in Hf.
      destruct Hf as [Hf _]. apply splitSpaces_fragment in Hf.
      destruct Hf as (fs & H1 & H2 & H3 & _). eauto. }
    assert (Hold : forall q, In q (validBoxes st) -> disjointBoxes q p).
    { intros q Hq Hint. apply intersects_sym in Hint. revert Hint.
      apply (inside_disjoint space); [exact Hp|]. now apply Hfree. }
    constructor.
    + apply Forall_forall. intros f Hf.
      destruct (Hfrag f Hf) as (fs & H1 & H2 & _).
      apply inside_trans with fs; auto.
    + intros f q Hf Hq. destruct (Hfrag f Hf) as (fs & H1 & H2 & H3).
      rewrite Evalid in Hq. apply in_app_or in Hq.
      destruct Hq as [Hq | [<- | []]]; [|exact H3].
      apply (inside_disjoint fs); [exact H2|]. now apply Hfree.
    + rewrite Evalid. apply ordPairs_snoc; [exact Hdisj|].
      apply Forall_forall. exact Hold.
    + rewrite Evalid. apply Forall_app. split; [now apply Forall_forall|].
      constructor; [|constructor]. apply inside_trans with space; auto.
  - constructor; rewrite ?Efree, ?Evalid; try apply Forall_forall; auto.
Qed.

Lemma trialInv_loop (container : Dimensions) (xs : list CargoItem) (st : TrialState) :
  TrialInv container st -> TrialInv container (fold_left packItem xs st).
Proof.
  revert st. induction xs as [|item rest IH]; intros st Hinv; simpl.
  - exact Hinv.
  - now apply IH, trialInv_packItem.
Qed.

(** The items a trial fails to place keep the dimensions they came with. *)
Lemma failed_positive (xs : list CargoItem) (st : TrialState) :
  allPositive xs ->
  allPositive (filter (fun i => negb (isValid i)) (placedItems st)) ->
  allPositive (filter (fun i => negb (isValid i)) (placedItems (fold_left packItem xs st))).
Proof.
  revert st. induction xs as [|item rest IH]; intros st Hpos Hst; simpl.
  - exact Hst.
  - inversion Hpos as [|? ? Hitem Hrest]; subst.
    apply IH; [exact Hrest|].
    destruct (packItem_appends st item) as (o & -> & _ & Hdim).
    rewrite filter_app. apply Forall_app. split; [exact Hst|].
    cbn [filter]. destruct (isValid o); cbn [negb]; constructor; [|constructor].
    now rewrite Hdim.
Qed.

Lemma finishPack_apart (container : Dimensions) (st : TrialState) :
  TrialInv container st ->
  allPositive (filter (fun i => negb (isValid i)) (placedItems st)) ->
  ForallOrdPairs apartBoxes
    (filter isValid (placedItems st) ++
     arrangeStaging (filter (fun i => negb (isValid i)) (placedItems st)) container).
Proof.
  intros [_ _ Hdisj Hplaced] Hpos. apply ordPairs_app.
  - apply ordPairs_map in Hdisj.
    eapply ordPairs_impl; [|exact Hdisj].
    intros a b Hab. split; [exact Hab|].
    intro H. apply Hab. now apply intersects_sym.
  - eapply ordPairs_impl; [|apply arrangeStaging_separated, Hpos].
    apply separated_not_intersect.
  - intros a b Ha Hb.
    apply (in_map itemBox) in Ha. rewrite Forall_forall in Hplaced.
    apply Hplaced in Ha. apply arrangeStaging_depth in Hb.
    unfold apartBoxes, boxesIntersect, intersects, inside, containerBox, itemBox in *.
    cbn [x y z l h w] in *. lia.
Qed.

Section NonOverlap.

Variable sortItems : SortStrategy -> Z -> list CargoItem -> list CargoItem.
Hypothesis sortItems_rearranges : rearranges sortItems.

Lemma autoPack_apart (inputItems : list CargoItem) (container : Dimensions) :
  allPositive inputItems ->
  ForallOrdPairs apartBoxes (autoPack sortItems inputItems container).
Proof.
  intro Hpos.
  destruct (autoPack_winner sortItems inputItems container) as (winner & Hfirst & ->).
  apply firstGreatest_In, trialResults_In in Hfirst.
  destruct Hfirst as (strategy & randomSeed & _ & ->).
  unfold finishPack, runPackingTrial, runTrialLoop. cbn [items].
  apply finishPack_apart.
  - apply trialInv_loop, trialInv_initial.
  - apply failed_positive; [|constructor].
    unfold allPositive.
    now rewrite (sortItems_rearranges strategy randomSeed inputItems).
Qed.

(** C1. For input items with positive dimensions and any container, no two
    items at different positions of the list returned by [autoPack] are both
    flagged valid with boxes overlapping by more than epsilon on the three
    axes; their boxes do not even intersect. *)
Theorem autoPack_valid_items_apart (inputItems : list CargoItem) (container : Dimensions) :
  allPositive inputItems ->
  pairwiseApart validOverlap (autoPack sortItems inputItems container) /\
  pairwiseApart boxesIntersect (autoPack sortItems inputItems container).
Proof.
  intro Hpos. pose proof (autoPack_apart inputItems container Hpos) as Hfop.
  split.
  - apply (ordPairs_apart apartBoxes); [|exact Hfop].
    intros a b [H1 H2]. split; intros (_ & _ & Ho);
      [apply H1 | apply H2]; now apply intersect_of_overlap.
  - apply (ordPairs_apart apartBoxes); [|exact Hfop].
    intros a b H. exact H.
Qed.

End NonOverlap.

(** * The model at work on concrete loads *)

(** Scenario A: a cube filling the container is placed at the origin and no
    free space survives. *)
Example scenario_full_container :
  map position
      (autoPack (sortByStrategy zeroNoise) [sampleItem "cube" 1000 1000 1000 (0, 0, 0)]
                cube1000)
    = [(0, 0, 0)] /\
  freeSpaces (runTrialLoop [sampleItem "cube" 1000 1000 1000 (0, 0, 0)] cube1000) = [].
Proof. split; reflexivity. Qed.

(** Three cubes of side 600: the first is placed at the origin, the other
    two are staged behind the container, one spacing apart. *)
Example scenario_three_cubes :
  map (fun i => (id i, position i, isValid i))
      (autoPack (sortByStrategy zeroNoise) threeCubes cube1000)
    = [ ("cube-a"%string, (0, 0, 0), true);
        ("cube-b"%string, (0, 0, 2500), true);
        ("cube-c"%string, (700, 0, 2500), true) ].
Proof. reflexivity. Qed.

Lemma threeCubes_positive : allPositive threeCubes.
Proof. repeat constructor. Qed.

Lemma cube1000_positive : positiveDimensions cube1000.
Proof. repeat split. Qed.

(** Witness of [autoPack_valid_items_apart]. *)
Lemma autoPack_valid_items_apart_witness :
  rearranges (sortByStrategy zeroNoise) /\ allPositive threeCubes /\
  pairwiseApart validOverlap (autoPack (sortByStrategy zeroNoise) threeCubes cube1000).
Proof.
  split; [exact (sortByStrategy_rearranges zeroNoise)|].
  split; [exact threeCubes_positive|].
  exact (proj1 (autoPack_valid_items_apart (sortByStrategy zeroNoise)
                  (sortByStrategy_rearranges zeroNoise)
                  threeCubes cube1000 threeCubes_positive)).
Defined.


(** Witness of [freeSpaces_within_container]: the free spaces left after
    the first cube. *)
Lemma freeSpaces_within_container_witness :
  positiveDimensions cube1000 /\
  goodSpaces cube1000
    (freeSpaces (runTrialLoop (firstn 1 (sortByStrategy zeroNoise VOLUME 0 threeCubes))
                              cube1000)).
Proof.
  split; [exact cube1000_positive|].
  exact (proj2 (proj2 (proj2 (freeSpaces_within_container cube1000 cube1000_positive)))
           (sortByStrategy zeroNoise) threeCubes VOLUME 0 1%nat).
Defined.

(** Witness of the separation part of [arrangeStaging_spec]. *)
Lemma arrangeStaging_spec_witness :
  allPositive threeCubes /\
  pairwiseApart boxesOverlap (arrangeStaging threeCubes cube1000).
Proof.
  split; [exact threeCubes_positive|].
  exact (proj2 (proj2
           (proj2 (proj2 (proj2 (proj2 (arrangeStaging_spec threeCubes cube1000))))
              threeCubes_positive))).
Defined.

(** Two equal boxes lie inside each other: the containment pass of the
    cleanup drops both. *)
Example cleanup_equal_boxes :
  cleanupSpaces [mkBox 0 0 0 100 100 100; mkBox 0 0 0 100 100 100] = [].
Proof. reflexivity. Qed.

(** Gravity first: a space on the floor beats an earlier space above it,
    and of two spaces with the same score the earlier one is kept. *)
Example scorer_prefers_floor :
  bestSpaceIndex
    (scanSpaces (sampleItem "cube" 600 600 600 (0, 0, 0))
       [mkBox 0 600 0 1000 1000 1000; mkBox 0 0 0 1000 1000 1000;
        mkBox 0 0 0 1000 1000 1000] 0 initBest) = 1.
Proof. reflexivity. Qed.

(** * Further properties of the packing trial *)

Lemma packItem_shape (st : TrialState) (item : CargoItem) :
  exists o, placedItems (packItem st item) = placedItems st ++ [o] /\
    ((isValid o = true /\
      totalPackedVol (packItem st item) = totalPackedVol st + volume (dimensions o)) \/
     (isValid o = false /\ position o = (0, -9999, 0) /\
      totalPackedVol (packItem st item) = totalPackedVol st)).
Proof.
  unfold packItem.
  destruct (negb (bestSpaceIndex (scanSpaces item (freeSpaces st) 0 initBest) =? -1)).
  - eexists. split; [reflexivity|]. left. split; reflexivity.
  - eexists. split; [reflexivity|]. right. repeat split.
Qed.

Lemma sumVolumes_app (xs ys : list CargoItem) :
  sumVolumes (xs ++ ys) = sumVolumes xs + sumVolumes ys.
Proof.
  induction xs as [|i rest IH]; simpl; [reflexivity|].
  unfold sumVolumes in *. simpl. rewrite IH. lia.
Qed.

Lemma trialLoop_volume (xs : list CargoItem) (st : TrialState) :
  totalPackedVol st = sumVolumes (filter isValid (placedItems st)) ->
  totalPackedVol (fold_left packItem xs st) =
    sumVolumes (filter isValid (placedItems (fold_left packItem xs st))).
Proof.
  revert st. induction xs as [|item rest IH]; intros st Hst; simpl; [exact Hst|].
  apply IH.
  destruct (packItem_shape st item) as (o & -> & [[Hv ->] | (Hv & _ & ->)]);
    rewrite filter_app, sumVolumes_app; cbn [filter]; rewrite Hv; cbn [sumVolumes fold_right];
    lia.
Qed.

Lemma trialLoop_sentinel (xs : list CargoItem) (st : TrialState) :
  Forall (fun o => isValid o = false -> position o = (0, -9999, 0)) (placedItems st) ->
  Forall (fun o => isValid o = false -> position o = (0, -9999, 0))
         (placedItems (fold_left packItem xs st)).
Proof.
  revert st. induction xs as [|item rest IH]; intros st Hst; simpl; [exact Hst|].
  apply IH.
  destruct (packItem_shape st item) as (o & -> & [[Hv _] | (_ & Hp & _)]);
    apply Forall_app; (split; [exact Hst|]); constructor; try constructor.
  - congruence.
  - intros _. exact Hp.
Qed.

(** X1. The packed volume a trial reports is the sum of the volumes of the
    items it flags valid, and its packed count is their number. *)
Theorem runPackingTrial_accounting
    (sortItems : SortStrategy -> Z -> list CargoItem -> list CargoItem)
    (inputItems : list CargoItem) (container : Dimensions)
    (strategy : SortStrategy) (randomSeed : Z) :
  packedVolume (runPackingTrial sortItems inputItems container strategy randomSeed) =
    sumVolumes (filter isValid
      (items (runPackingTrial sortItems inputItems container strategy randomSeed))) /\
  packedCount (runPackingTrial sortItems inputItems container strategy randomSeed) =
    Z.of_nat (List.length (filter isValid
      (items (runPackingTrial sortItems inputItems container strategy randomSeed)))).
Proof.
  split; [|reflexivity].
  unfold runPackingTrial, runTrialLoop. cbn [packedVolume items].
  apply trialLoop_volume. reflexivity.
Qed.

(** X2. In the result of a trial every item flagged valid lies in the
    container (corner coordinates at least 0, far faces within the
    container), so in its placed orientation it is no larger than the
    container on any axis; every item flagged invalid sits at the sentinel
    position (0, -9999, 0). *)
Theorem runPackingTrial_items
    (sortItems : SortStrategy -> Z -> list CargoItem -> list CargoItem)
    (inputItems : list CargoItem) (container : Dimensions)
    (strategy : SortStrategy) (randomSeed : Z) :
  Forall (trialItemOk container)
         (items (runPackingTrial sortItems inputItems container strategy randomSeed)).
Proof.
  unfold runPackingTrial, runTrialLoop. cbn [items].
  set (st := fold_left packItem (sortItems strategy randomSeed inputItems)
                       (initialState container)).
  assert (Hinv : TrialInv container st)
    by (apply trialInv_loop, trialInv_initial).
  assert (Hsent : Forall (fun o => isValid o = false -> position o = (0, -9999, 0))
                         (placedItems st))
    by (apply trialLoop_sentinel; constructor).
  destruct Hinv as [_ _ _ Hinside].
  rewrite Forall_forall in Hinside, Hsent. apply Forall_forall. intros o Ho.
  unfold trialItemOk. destruct (isValid o) eqn:Hv.
  - left. split; [reflexivity|].
    assert (Hb : inside (containerBox container) (itemBox o)).
    { apply Hinside. unfold validBoxes. apply in_map, filter_In. auto. }
    apply withinContainer_inside in Hb. split; [exact Hb|].
    unfold withinContainer, itemBox in Hb. cbn [x y z l h w] in Hb. lia.
  - right. split; [reflexivity|]. now apply Hsent.
Qed.

(** X3. At every point of a trial no free space intersects the box of an
    item placed so far. *)
Theorem freeSpaces_miss_placed_items
    (sortItems : SortStrategy -> Z -> list CargoItem -> list CargoItem)
    (inputItems : list CargoItem) (container : Dimensions)
    (strategy : SortStrategy) (randomSeed : Z) (done : nat) :
  Forall (fun fs =>
            Forall (fun q => ~ intersects fs q)
                   (validBoxes (runTrialLoop
                      (firstn done (sortItems strategy randomSeed inputItems)) container)))
         (freeSpaces (runTrialLoop
            (firstn done (sortItems strategy randomSeed inputItems)) container)).
Proof.
  destruct (trialInv_loop container
              (firstn done (sortItems strategy randomSeed inputItems))
              (initialState container) (trialInv_initial container))
    as [_ Hfree _ _].
  apply Forall_forall. intros fs Hfs. apply Forall_forall. intros q Hq.
  now apply Hfree.
Qed.

(** X4. The scorer never answers with an index outside the free-space
    list: it keeps -1, or returns the index of a space in which the item
    fits in the orientation it reports, so the trial never reads
    [freeSpaces] out of range. *)
Theorem scanSpaces_in_range (item : CargoItem) (spaces : list Box) :
  bestSpaceIndex (scanSpaces item spaces 0 initBest) = -1 \/
  (0 <= bestSpaceIndex (scanSpaces item spaces 0 initBest)
     < Z.of_nat (List.length spaces) /\
   orientationFits item (bestRotation (scanSpaces item spaces 0 initBest))
     (nth (Z.to_nat (bestSpaceIndex (scanSpaces item spaces 0 initBest))) spaces noBox)).
Proof.
  destruct (Z.eq_dec (bestSpaceIndex (scanSpaces item spaces 0 initBest)) (-1))
    as [E | Hne]; [now left | right].
  destruct (scanSpaces_index item spaces Hne) as (space & Hn & Hfit).
  rewrite (nth_error_nth _ _ noBox Hn). split; [|exact Hfit].
  assert (Hlt : (Z.to_nat (bestSpaceIndex (scanSpaces item spaces 0 initBest))
                 < List.length spaces)%nat)
    by (apply nth_error_Some; congruence).
  rewrite scanSpaces_pick in *.
  destruct (fold_pick_firstLowest (candidatesFrom item spaces 0))
    as [[_ E] | (c & _ & E)]; rewrite E in *.
  - now contradiction Hne.
  - cbn [bestOf bestSpaceIndex] in *. rewrite Nat2Z.id in Hlt. lia.
Qed.

(** X5. Splitting loses nothing but the placed box and what lies under it:
    a point of a free space that intersects the placed box, outside that box
    and not below its bottom face, lies in one of the fragments. *)
Theorem splitSpace_covers (p fs : Box) (px py pz : Z) :
  intersects fs p -> pointIn px py pz fs -> ~ pointIn px py pz p -> y p <= py ->
  exists f, In f (splitSpace p fs) /\ pointIn px py pz f.
Proof.
  intros Hi Hfs Hp Hy.
  destruct (splitSpace_replacement p fs) as [[_ ->] | [Hn _]]; [|contradiction].
  destruct Hi as [[Hx1 Hx2] [[Hy1 Hy2] [Hz1 Hz2]]].
  unfold pointIn in *.
  destruct (Z_lt_le_dec px (x p)) as [Hl | Hl].
  { exists (leftSlice fs p). split.
    - apply fiveSlices_In. right. left. split; [reflexivity|]. cbn [leftSlice l]. lia.
    - cbn [leftSlice x y z l h w]. lia. }
  destruct (Z_lt_le_dec px (x p + l p)) as [Hr | Hr].
  2:{ exists (rightSlice fs p). split.
      - apply fiveSlices_In. left. split; [reflexivity|]. cbn [rightSlice l]. lia.
      - cbn [rightSlice x y z l h w]. lia. }
  destruct (Z_lt_le_dec pz (z p)) as [Hb | Hb].
  { exists (behindSlice fs p). split.
    - apply fiveSlices_In. do 4 right. split; [reflexivity|]. cbn [behindSlice w]. lia.
    - cbn [behindSlice x y z l h w]. lia. }
  destruct (Z_lt_le_dec pz (z p + w p)) as [Hf | Hf].
  2:{ exists (frontSlice fs p). split.
      - apply fiveSlices_In. do 3 right. left. split; [reflexivity|].
        cbn [frontSlice w]. lia.
      - cbn [frontSlice x y z l h w]. lia. }
  exists (aboveSlice fs p). split.
  - apply fiveSlices_In. do 2 right. left. split; [reflexivity|]. cbn [aboveSlice h]. lia.
  - cbn [aboveSlice x y z l h w]. lia.
Qed.

(** * Order and idempotence of the cleanup *)

Lemma compareSpaces_order (a b : Box) :
  (compareSpaces a b <=? 0) = true <-> spaceOrder a b.
Proof.
  unfold compareSpaces, spaceOrder.
  destruct (Z.eqb_spec (y a - y b) 0); cbn [negb];
    [destruct (Z.eqb_spec (z a - z b) 0); cbn [negb]|];
    rewrite Z.leb_le; lia.
Qed.

Lemma spaceOrder_total (a b : Box) : spaceOrder a b \/ spaceOrder b a.
Proof. unfold spaceOrder. lia. Qed.

Lemma spaceOrder_trans (a b c : Box) : spaceOrder a b -> spaceOrder b c -> spaceOrder a c.
Proof. unfold spaceOrder. lia. Qed.

Lemma insertSorted_spaceOrder (e : Box) (sorted : list Box) :
  StronglySorted spaceOrder sorted ->
  StronglySorted spaceOrder (insertSorted (fun a b => compareSpaces a b <=? 0) e sorted).
Proof.
  induction 1 as [|s rest Hrest IH Hall]; simpl.
  - constructor; constructor.
  - destruct (compareSpaces e s <=? 0) eqn:Hc.
    + apply compareSpaces_order in Hc. constructor; [now constructor|].
      constructor; [exact Hc|].
      eapply Forall_impl; [|exact Hall]. intros b Hb. now apply spaceOrder_trans with s.
    + assert (Hse : spaceOrder s e).
      { destruct (spaceOrder_total e s) as [H | H]; [|exact H].
        apply compareSpaces_order in H. congruence. }
      constructor; [exact IH|].
      apply Forall_forall. intros b Hb.
      apply (Permutation_in _ (insertSorted_perm _ e rest)) in Hb.
      destruct Hb as [<- | Hb]; [exact Hse|].
      rewrite Forall_forall in Hall. now apply Hall.
Qed.

Lemma sortSpaces_sorted (spaces : list Box) : StronglySorted spaceOrder (sortSpaces spaces).
Proof.
  unfold sortSpaces, stableSort. induction spaces as [|a rest IH]; simpl.
  - constructor.
  - now apply insertSorted_spaceOrder.
Qed.

(** Sorting a list that is already in order changes nothing. *)
Lemma sortSpaces_fixed (spaces : list Box) :
  StronglySorted spaceOrder spaces -> sortSpaces spaces = spaces.
Proof.
  unfold sortSpaces, stableSort. induction 1 as [|a rest Hrest IH Hall]; simpl.
  - reflexivity.
  - rewrite IH. destruct rest as [|b rest']; [reflexivity|].
    inversion Hall as [|? ? Hab _]; subst. cbn [insertSorted].
    apply compareSpaces_order in Hab. now rewrite Hab.
Qed.

Lemma StronglySorted_filter {A : Type} (R : A -> A -> Prop) (f : A -> bool) (xs : list A) :
  StronglySorted R xs -> StronglySorted R (filter f xs).
Proof.
  induction 1 as [|a rest Hrest IH Hall]; simpl; [constructor|].
  destruct (f a); [|exact IH]. constructor; [exact IH|].
  rewrite Forall_forall in *. intros b Hb. apply filter_In in Hb. now apply Hall.
Qed.

Lemma StronglySorted_indexed_filter {A : Type} (R : A -> A -> Prop)
    (P : nat * A -> bool) (v : list A) (s : nat) :
  StronglySorted R v ->
  StronglySorted R (map snd (filter P (combine (seq s (List.length v)) v))).
Proof.
  intro Hs. revert s. induction Hs as [|a rest Hrest IH Hall]; intro s; simpl.
  - constructor.
  - destruct (P (s, a)); [|apply IH]. cbn [map snd]. constructor; [apply IH|].
    rewrite Forall_forall in *. intros b Hb. apply in_map_iff in Hb.
    destruct Hb as ([j b'] & <- & Hin). apply filter_In in Hin. destruct Hin as [Hin _].
    apply in_combine_r in Hin. now apply Hall.
Qed.

Lemma cleanupSpaces_sorted (spaces : list Box) :
  StronglySorted spaceOrder (cleanupSpaces spaces).
Proof.
  unfold cleanupSpaces, indexed.
  apply StronglySorted_indexed_filter, StronglySorted_filter, sortSpaces_sorted.
Qed.

Lemma map_snd_indexed {A : Type} (v : list A) : map snd (indexed v) = v.
Proof.
  unfold indexed. generalize 0%nat.
  induction v as [|a rest IH]; intro s; simpl; [reflexivity|]. now rewrite IH.
Qed.

Lemma filter_all {A : Type} (f : A -> bool) (xs : list A) :
  (forall a, In a xs -> f a = true) -> filter f xs = xs.
Proof.
  induction xs as [|a rest IH]; intro H; simpl; [reflexivity|].
  rewrite (H a (or_introl eq_refl)), IH; [reflexivity|].
  intros b Hb. apply H. now right.
Qed.

(** No box kept by the cleanup lies inside a box kept at another index. *)
Lemma cleanupSpaces_none_inside (spaces : list Box) (i j : nat) (a b : Box) :
  i <> j -> nth_error (cleanupSpaces spaces) i = Some a ->
  nth_error (cleanupSpaces spaces) j = Some b -> contains b a = false.
Proof.
  intros Hne Hi Hj.
  set (v := sizeSurvivors spaces) in *.
  set (keep := fun k => negb (isContained v k (nth k v noBox))).
  rewrite cleanupSpaces_kept in Hi, Hj. fold v in Hi, Hj. fold keep in Hi, Hj.
  rewrite nth_error_map in Hi, Hj.
  destruct (nth_error (filter keep (seq 0 (List.length v))) i) as [ki|] eqn:Eki;
    [|discriminate].
  destruct (nth_error (filter keep (seq 0 (List.length v))) j) as [kj|] eqn:Ekj;
    [|discriminate].
  injection Hi as <-. injection Hj as <-.
  pose proof (StronglySorted_lt_nth _ _ _ _ _
                (filter_seq_sorted keep 0 (List.length v)) Eki Ekj Hne) as Hk.
  apply nth_error_In, filter_In in Eki. destruct Eki as [_ Hkeep].
  apply nth_error_In, filter_In in Ekj. destruct Ekj as [Hkj _]. apply in_seq in Hkj.
  unfold keep in Hkeep. apply negb_true_iff in Hkeep.
  destruct (contains (nth kj v noBox) (nth ki v noBox)) eqn:Hc; [|reflexivity].
  assert (Hex : isContained v ki (nth ki v noBox) = true).
  { apply isContained_iff. exists kj, (nth kj v noBox).
    split; [auto|]. split; [apply nth_error_nth'; lia | now apply contains_iff]. }
  congruence.
Qed.

(** X6. The list returned by [cleanupSpaces] is ordered by height, then
    depth, then left to right (the order in which the scorer breaks ties),
    and cleaning it once more changes nothing. *)
Theorem cleanupSpaces_sorted_idempotent (spaces : list Box) :
  StronglySorted spaceOrder (cleanupSpaces spaces) /\
  cleanupSpaces (cleanupSpaces spaces) = cleanupSpaces spaces.
Proof.
  split; [apply cleanupSpaces_sorted|].
  set (r := cleanupSpaces spaces).
  assert (Hsize : filter validSize r = r).
  { apply filter_all. intros b Hb. now apply cleanupSpaces_In in Hb. }
  unfold cleanupSpaces at 1. fold r.
  rewrite (sortSpaces_fixed r) by apply cleanupSpaces_sorted.
  rewrite Hsize, filter_all; [apply map_snd_indexed|].
  intros [i a] Hin. cbn [fst snd]. apply indexed_In in Hin.
  apply negb_true_iff. destruct (isContained r i a) eqn:Hc; [|reflexivity].
  apply isContained_iff in Hc. destruct Hc as (j & b & Hne & Hj & Hins).
  apply contains_iff in Hins.
  rewrite (cleanupSpaces_none_inside spaces i j a b) in Hins; auto.
Qed.

(** * Further properties of the staging arranger *)

Lemma stagingLoop_row_limit (xs : list CargoItem) (cx cz mz : Z) :
  Forall (fun o => pos0 (position o) = 0 \/
                   pos0 (position o) + length (dimensions o) <= stagingWidthLimit)
         (stagingLoop xs cx cz mz).
Proof.
  revert cx cz mz. induction xs as [|i rest IH]; intros cx cz mz; simpl.
  - constructor.
  - constructor; [|apply IH].
    cbn [withPosition position dimensions pos0 fst]. rewrite Z.gtb_ltb.
    destruct (Z.ltb_spec stagingWidthLimit (cx + length (dimensions i)));
      [now left | right; lia].
Qed.

Lemma stagingLoop_nonneg (xs : list CargoItem) (cx cz mz : Z) :
  allPositive xs -> 0 <= cx ->
  Forall (fun o => 0 <= pos0 (position o)) (stagingLoop xs cx cz mz).
Proof.
  revert cx cz mz. induction xs as [|i rest IH]; intros cx cz mz Hpos Hcx; simpl.
  - constructor.
  - inversion Hpos as [|? ? [Hl _] Hrest]; subst.
    destruct (cx + length (dimensions i) >? stagingWidthLimit);
      (constructor; [cbn; lia | apply IH; [exact Hrest | unfold spacing; lia]]).
Qed.

Lemma stagingLoop_restage (xs : list CargoItem) (cx cz mz cx' cz' mz' : Z) :
  stagingLoop (stagingLoop xs cx' cz' mz') cx cz mz = stagingLoop xs cx cz mz.
Proof.
  revert cx cz mz cx' cz' mz'.
  induction xs as [|i rest IH]; intros; simpl; [reflexivity|].
  now rewrite IH.
Qed.

(** X7. No staged item sticks out past the row-width limit unless it opens
    a row: each one stands at x = 0 or ends at most at 15000. *)
Theorem arrangeStaging_row_limit (xs : list CargoItem) (container : Dimensions) :
  Forall (fun o => pos0 (position o) = 0 \/
                   pos0 (position o) + length (dimensions o) <= 15000)
         (arrangeStaging xs container).
Proof. apply stagingLoop_row_limit. Qed.

(** X8. The staging layout depends on the dimensions of the items and on
    the container only, not on where the items were or how they were
    flagged: staging an already staged list, for any container, gives the
    layout of staging the original list for that container; in particular
    [arrangeStaging] is idempotent. *)
Theorem arrangeStaging_restage (xs : list CargoItem) (container container' : Dimensions) :
  arrangeStaging (arrangeStaging xs container') container = arrangeStaging xs container /\
  arrangeStaging (arrangeStaging xs container) container = arrangeStaging xs container.
Proof. split; apply stagingLoop_restage. Qed.

(** * Further properties of the snapping engine *)

Lemma abs_ltb_nonpos (e threshold : Z) : threshold <= 0 -> (Z.abs e <? threshold) = false.
Proof. intro H. apply Z.ltb_ge. lia. Qed.

Lemma snapStep_disabled (dims : Dimensions) (selfId : string) (threshold : Z)
    (acc : Z * Z * Z) (other : CargoItem) :
  threshold <= 0 -> snapStep dims selfId threshold acc other = acc.
Proof.
  intro H. unfold snapStep. destruct (String.eqb (id other) selfId); [reflexivity|].
  cbv zeta. rewrite !(abs_ltb_nonpos _ threshold H).
  destruct acc as [[ax ay] az]. reflexivity.
Qed.

(** X9. With a threshold of 0 or less snapping is switched off:
    [getSnappingPosition] returns the candidate position unchanged. *)
Theorem getSnappingPosition_disabled (currentPos : Z * Z * Z) (dims : Dimensions)
    (others : list CargoItem) (selfId : string) (threshold : Z) :
  threshold <= 0 ->
  getSnappingPosition currentPos dims others selfId threshold = currentPos.
Proof.
  intro H. unfold getSnappingPosition. cbv zeta.
  rewrite !(abs_ltb_nonpos _ threshold H).
  destruct currentPos as [[cx cy] cz]. cbn [pos0 pos1 pos2 fst snd].
  induction others as [|o rest IH]; simpl; [reflexivity|].
  now rewrite snapStep_disabled.
Qed.

Lemma snapStep_self (dims : Dimensions) (selfId : string) (threshold : Z)
    (acc : Z * Z * Z) (other : CargoItem) :
  String.eqb (id other) selfId = true -> snapStep dims selfId threshold acc other = acc.
Proof. intro H. unfold snapStep. now rewrite H. Qed.

Lemma snapFold_withoutId (dims : Dimensions) (selfId : string) (threshold : Z)
    (others : list CargoItem) (acc : Z * Z * Z) :
  fold_left (snapStep dims selfId threshold) others acc =
  fold_left (snapStep dims selfId threshold) (withoutId selfId others) acc.
Proof.
  revert acc. induction others as [|o rest IH]; intro acc; simpl; [reflexivity|].
  destruct (String.eqb (id o) selfId) eqn:E; cbn [negb].
  - rewrite snapStep_self by exact E. apply IH.
  - simpl. apply IH.
Qed.

(** X10. Items carrying the moved item's own id play no part in snapping:
    the result is that for the list without them.  When no other item is
    left, each coordinate goes to 0 if it is within the threshold of 0 and
    stays as it is otherwise. *)
Theorem getSnappingPosition_ignores_self (currentPos : Z * Z * Z) (dims : Dimensions)
    (others : list CargoItem) (selfId : string) (threshold : Z) :
  getSnappingPosition currentPos dims others selfId threshold =
    getSnappingPosition currentPos dims (withoutId selfId others) selfId threshold /\
  (withoutId selfId others = [] ->
   getSnappingPosition currentPos dims others selfId threshold =
     (if Z.abs (pos0 currentPos) <? threshold then 0 else pos0 currentPos,
      if Z.abs (pos1 currentPos) <? threshold then 0 else pos1 currentPos,
      if Z.abs (pos2 currentPos) <? threshold then 0 else pos2 currentPos)).
Proof.
  split.
  - unfold getSnappingPosition. cbv zeta. apply snapFold_withoutId.
  - intro E. unfold getSnappingPosition. cbv zeta.
    now rewrite snapFold_withoutId, E.
Qed.

Lemma snapStep_targets (dims : Dimensions) (selfId : string) (threshold : Z)
    (others : list CargoItem) (cx cy cz : Z) (acc : Z * Z * Z) (other : CargoItem) :
  In other others ->
  (In (pos0 acc) (cx :: snapTargetsX dims selfId others) /\
   In (pos1 acc) (cy :: snapTargetsY dims selfId others) /\
   In (pos2 acc) (cz :: snapTargetsZ dims selfId others)) ->
  In (pos0 (snapStep dims selfId threshold acc other))
     (cx :: snapTargetsX dims selfId others) /\
  In (pos1 (snapStep dims selfId threshold acc other))
     (cy :: snapTargetsY dims selfId others) /\
  In (pos2 (snapStep dims selfId threshold acc other))
     (cz :: snapTargetsZ dims selfId others).
Proof.
  intros Hin (Hx & Hy & Hz). unfold snapStep.
  destruct (String.eqb (id other) selfId) eqn:E; [auto|].
  assert (Tx : forall v,
            In v [ pos0 (position other) + length (dimensions other);
                   pos0 (position other) - length dims;
                   pos0 (position other);
                   pos0 (position other) + length (dimensions other) - length dims ] ->
            In v (cx :: snapTargetsX dims selfId others)).
  { intros v Hv. right. right. apply in_flat_map. exists other. rewrite E. auto. }
  assert (Ty : forall v,
            In v [ pos1 (position other) + height (dimensions other);
                   pos1 (position other) - height dims ] ->
            In v (cy :: snapTargetsY dims selfId others)).
  { intros v Hv. right. right. apply in_flat_map. exists other. rewrite E. auto. }
  assert (Tz : forall v,
            In v [ pos2 (position other) + width (dimensions other);
                   pos2 (position other) - width dims;
                   pos2 (position other);
                   pos2 (position other) + width (dimensions other) - width dims ] ->
            In v (cz :: snapTargetsZ dims selfId others)).
  { intros v Hv. right. right. apply in_flat_map. exists other. rewrite E. auto. }
  cbv zeta. cbn [pos0 pos1 pos2 fst snd].
  repeat match goal with
         | |- context [if ?c then _ else _] => destruct c
         end;
    (split; [|split]); try assumption;
    solve [apply Tx; simpl; auto | apply Ty; simpl; auto | apply Tz; simpl; auto].
Qed.

Lemma snapFold_targets (dims : Dimensions) (selfId : string) (threshold : Z)
    (others rest : list CargoItem) (cx cy cz : Z) (acc : Z * Z * Z) :
  incl rest others ->
  (In (pos0 acc) (cx :: snapTargetsX dims selfId others) /\
   In (pos1 acc) (cy :: snapTargetsY dims selfId others) /\
   In (pos2 acc) (cz :: snapTargetsZ dims selfId others)) ->
  In (pos0 (fold_left (snapStep dims selfId threshold) rest acc))
     (cx :: snapTargetsX dims selfId others) /\
  In (pos1 (fold_left (snapStep dims selfId threshold) rest acc))
     (cy :: snapTargetsY dims selfId others) /\
  In (pos2 (fold_left (snapStep dims selfId threshold) rest acc))
     (cz :: snapTargetsZ dims selfId others).
Proof.
  revert acc. induction rest as [|o rest IH]; intros acc Hincl Hacc; simpl.
  - exact Hacc.
  - apply IH.
    + intros u Hu. apply Hincl. now right.
    + apply snapStep_targets; [apply Hincl; now left | exact Hacc].
Qed.

(** X11. Snapping never invents a coordinate: on each axis the result is
    the candidate's own coordinate, 0, or one of the alignment positions
    with an item of [others] that has a different id (far face, near face
    minus own extent, near face, far face minus own extent; on the vertical
    axis only the first two). *)
Theorem getSnappingPosition_targets (currentPos : Z * Z * Z) (dims : Dimensions)
    (others : list CargoItem) (selfId : string) (threshold : Z) :
  In (pos0 (getSnappingPosition currentPos dims others selfId threshold))
     (pos0 currentPos :: snapTargetsX dims selfId others) /\
  In (pos1 (getSnappingPosition currentPos dims others selfId threshold))
     (pos1 currentPos :: snapTargetsY dims selfId others) /\
  In (pos2 (getSnappingPosition currentPos dims others selfId threshold))
     (pos2 currentPos :: snapTargetsZ dims selfId others).
Proof.
  unfold getSnappingPosition. cbv zeta.
  apply snapFold_targets; [apply incl_refl|].
  cbn [pos0 pos1 pos2 fst snd].
  destruct (Z.abs (pos0 currentPos) <? threshold),
           (Z.abs (pos1 currentPos) <? threshold),
           (Z.abs (pos2 currentPos) <? threshold);
    unfold snapTargetsX, snapTargetsY, snapTargetsZ; simpl; auto.
Qed.

Lemma snapStep_axes (dims dims' : Dimensions) (selfId : string) (threshold : Z)
    (acc acc' : Z * Z * Z) (other : CargoItem) :
  (pos0 acc = pos0 acc' -> length dims = length dims' ->
   pos0 (snapStep dims selfId threshold acc other) =
   pos0 (snapStep dims' selfId threshold acc' other)) /\
  (pos1 acc = pos1 acc' -> height dims = height dims' ->
   pos1 (snapStep dims selfId threshold acc other) =
   pos1 (snapStep dims' selfId threshold acc' other)) /\
  (pos2 acc = pos2 acc' -> width dims = width dims' ->
   pos2 (snapStep dims selfId threshold acc other) =
   pos2 (snapStep dims' selfId threshold acc' other)).
Proof.
  unfold snapStep. destruct (String.eqb (id other) selfId); [tauto|].
  cbv zeta. cbn [pos0 pos1 pos2 fst snd].
  repeat split; intros -> ->; reflexivity.
Qed.

Lemma snapFold_axes (dims dims' : Dimensions) (selfId : string) (threshold : Z)
    (others : list CargoItem) (acc acc' : Z * Z * Z) :
  (pos0 acc = pos0 acc' -> length dims = length dims' ->
   pos0 (fold_left (snapStep dims selfId threshold) others acc) =
   pos0 (fold_left (snapStep dims' selfId threshold) others acc')) /\
  (pos1 acc = pos1 acc' -> height dims = height dims' ->
   pos1 (fold_left (snapStep dims selfId threshold) others acc) =
   pos1 (fold_left (snapStep dims' selfId threshold) others acc')) /\
  (pos2 acc = pos2 acc' -> width dims = width dims' ->
   pos2 (fold_left (snapStep dims selfId threshold) others acc) =
   pos2 (fold_left (snapStep dims' selfId threshold) others acc')).
Proof.
  revert acc acc'. induction others as [|o rest IH]; intros acc acc'; simpl.
  - tauto.
  - destruct (IH (snapStep dims selfId threshold acc o)
                 (snapStep dims' selfId threshold acc' o)) as (Hx & Hy & Hz).
    destruct (snapStep_axes dims dims' selfId threshold acc acc' o) as (Sx & Sy & Sz).
    repeat split; intros; auto.
Qed.

(** X12. The axes are snapped independently: the snapped x depends on the
    candidate's x and the moved item's length only (not on its y, z, height
    or width), and likewise the snapped y on y and height, the snapped z on
    z and width. *)
Theorem getSnappingPosition_axes (cx cy cz cx' cy' cz' : Z)
    (len wid hei len' wid' hei' : Z)
    (others : list CargoItem) (selfId : string) (threshold : Z) :
  pos0 (getSnappingPosition (cx, cy, cz) (mkDimensions len wid hei)
          others selfId threshold) =
  pos0 (getSnappingPosition (cx, cy', cz') (mkDimensions len wid' hei')
          others selfId threshold) /\
  pos1 (getSnappingPosition (cx, cy, cz) (mkDimensions len wid hei)
          others selfId threshold) =
  pos1 (getSnappingPosition (cx', cy, cz') (mkDimensions len' wid' hei)
          others selfId threshold) /\
  pos2 (getSnappingPosition (cx, cy, cz) (mkDimensions len wid hei)
          others selfId threshold) =
  pos2 (getSnappingPosition (cx', cy', cz) (mkDimensions len' wid hei')
          others selfId threshold).
Proof.
  unfold getSnappingPosition. cbv zeta. cbn [pos0 pos1 pos2 fst snd].
  split; [|split].
  - apply snapFold_axes; reflexivity.
  - apply snapFold_axes; reflexivity.
  - apply snapFold_axes; reflexivity.
Qed.

(** * Further properties of the collision detector *)

Lemma collisionLoop_app (target : Box) (targetId : string) (xs ys : list CargoItem) :
  collisionLoop target targetId (xs ++ ys) =
  collisionLoop target targetId xs || collisionLoop target targetId ys.
Proof.
  induction xs as [|o rest IH]; simpl; [reflexivity|].
  destruct (String.eqb (id o) targetId); [exact IH|].
  destruct (overlap target (itemBox o)); [reflexivity | exact IH].
Qed.

Lemma collisionLoop_withoutId (target : Box) (targetId : string) (others : list CargoItem) :
  collisionLoop target targetId others =
  collisionLoop target targetId (withoutId targetId others).
Proof.
  induction others as [|o rest IH]; simpl; [reflexivity|].
  destruct (String.eqb (id o) targetId) eqn:E; cbn [negb]; [exact IH|].
  simpl. rewrite E. now rewrite IH.
Qed.

(** X13. The collision test ignores every item carrying the target's own
    id, so testing an item against a list that contains it is testing it
    against the rest; and a collision with a list put together from two
    lists is a collision with one of them. *)
Theorem checkCollisionWithCoords_compose (target : Box) (targetId : string)
    (xs ys : list CargoItem) (container : Dimensions) :
  checkCollisionWithCoords target targetId xs container =
    checkCollisionWithCoords target targetId (withoutId targetId xs) container /\
  checkCollisionWithCoords target targetId (xs ++ ys) container =
    checkCollisionWithCoords target targetId xs container
    || checkCollisionWithCoords target targetId ys container.
Proof.
  unfold checkCollisionWithCoords.
  destruct ((x target <? 0) || (y target <? 0) || (z target <? 0)).
  - split; reflexivity.
  - split; [apply collisionLoop_withoutId | apply collisionLoop_app].
Qed.

(** * The packed list against the interactive collision test *)

Lemma stagingLoop_floor (xs : list CargoItem) (cx cz mz : Z) :
  Forall (fun o => pos1 (position o) = 0) (stagingLoop xs cx cz mz).
Proof.
  revert cx cz mz. induction xs as [|i rest IH]; intros cx cz mz; simpl.
  - constructor.
  - constructor; [reflexivity | apply IH].
Qed.

Lemma finishPack_nonneg (container : Dimensions) (st : TrialState) :
  TrialInv container st ->
  allPositive (filter (fun i => negb (isValid i)) (placedItems st)) ->
  0 <= width container + 1500 ->
  Forall cornerNonNegative
    (filter isValid (placedItems st) ++
     arrangeStaging (filter (fun i => negb (isValid i)) (placedItems st)) container).
Proof.
  intros [_ _ _ Hinside] Hpos Hw. apply Forall_app. split.
  - rewrite Forall_forall in *. intros a Ha.
    assert (Hb : inside (containerBox container) (itemBox a))
      by (apply Hinside; unfold validBoxes; now apply in_map).
    unfold inside, containerBox, itemBox, cornerNonNegative in *.
    cbn [x y z l h w] in Hb. lia.
  - set (failed := filter (fun i => negb (isValid i)) (placedItems st)) in *.
    pose proof (stagingLoop_nonneg failed 0 (stagingZStart container) 0 Hpos
                  (Z.le_refl 0)) as Hx.
    pose proof (stagingLoop_floor failed 0 (stagingZStart container) 0) as Hy.
    fold (arrangeStaging failed container) in Hx, Hy.
    rewrite Forall_forall in *. intros o Ho.
    pose proof (arrangeStaging_depth failed container o Ho).
    specialize (Hx o Ho). specialize (Hy o Ho).
    unfold cornerNonNegative. lia.
Qed.

Section PackedAgainstCollision.

Variable sortItems : SortStrategy -> Z -> list CargoItem -> list CargoItem.
Hypothesis sortItems_rearranges : rearranges sortItems.

(** X14. What [autoPack] returns is consistent with the interactive
    collision test: for items and a container with positive dimensions,
    [checkCollision] is false for every item of the returned list tested
    against the whole list. *)
Theorem autoPack_passes_checkCollision (inputItems : list CargoItem)
    (container : Dimensions) :
  allPositive inputItems -> positiveDimensions container ->
  Forall (fun a => checkCollision a (autoPack sortItems inputItems container) container
                   = false)
         (autoPack sortItems inputItems container).
Proof.
  intros Hpos (_ & Hw & _).
  pose proof (autoPack_apart sortItems sortItems_rearranges inputItems container Hpos)
    as Hapart.
  assert (Hnonneg : Forall cornerNonNegative (autoPack sortItems inputItems container)).
  { destruct (autoPack_winner sortItems inputItems container) as (winner & Hfirst & ->).
    apply firstGreatest_In, trialResults_In in Hfirst.
    destruct Hfirst as (strategy & randomSeed & _ & ->).
    unfold finishPack, runPackingTrial, runTrialLoop. cbn [items].
    apply finishPack_nonneg; [apply trialInv_loop, trialInv_initial| |lia].
    apply failed_positive; [|constructor].
    unfold allPositive. now rewrite (sortItems_rearranges strategy randomSeed inputItems). }
  rewrite Forall_forall in *. intros a Ha.
  destruct (Hnonneg a Ha) as (Hx & Hy & Hz).
  unfold checkCollision, checkCollisionWithCoords. cbn [itemBox x y z].
  apply Z.ltb_ge in Hx, Hy, Hz. rewrite Hx, Hy, Hz. cbn [orb].
  destruct (collisionLoop (itemBox a) (id a) (autoPack sortItems inputItems container))
    eqn:Hloop; [|reflexivity].
  apply collisionLoop_iff in Hloop. destruct Hloop as (other & Hin & Hid & Hov).
  apply overlapsBeyond_intersects in Hov.
  destruct (ForallOrdPairs_In Hapart a other Ha Hin) as [E | [[H1 _] | [_ H2]]].
  - subst. now contradiction Hid.
  - now contradiction H1.
  - now contradiction H2.
Qed.

End PackedAgainstCollision.

(** * Order produced by the sort strategies *)

Section InsertionSorted.
Context {A : Type} (notAfter : A -> A -> bool) (R : A -> A -> Prop).
Hypothesis notAfter_R : forall a b, notAfter a b = true <-> R a b.
Hypothesis R_total : forall a b, R a b \/ R b a.
Hypothesis R_trans : forall a b c, R a b -> R b c -> R a c.

Lemma insertSorted_sorted (e : A) (sorted : list A) :
  StronglySorted R sorted -> StronglySorted R (insertSorted notAfter e sorted).
Proof.
  induction 1 as [|s rest Hrest IH Hall]; simpl.
  - constructor; constructor.
  - destruct (notAfter e s) eqn:Hc.
    + apply notAfter_R in Hc. constructor; [now constructor|].
      constructor; [exact Hc|].
      eapply Forall_impl; [|exact Hall]. intros b Hb. now apply R_trans with s.
    + assert (Hse : R s e).
      { destruct (R_total e s) as [H | H]; [|exact H].
        apply notAfter_R in H. congruence. }
      constructor; [exact IH|].
      apply Forall_forall. intros b Hb.
      apply (Permutation_in _ (insertSorted_perm notAfter e rest)) in Hb.
      destruct Hb as [<- | Hb]; [exact Hse|].
      rewrite Forall_forall in Hall. now apply Hall.
Qed.

Lemma stableSort_sorted (xs : list A) : StronglySorted R (stableSort notAfter xs).
Proof.
  unfold stableSort. induction xs as [|a rest IH]; simpl.
  - constructor.
  - now apply insertSorted_sorted.
Qed.

End InsertionSorted.

(** The secondary rule of the comparator on an integer score [d]: the
    height difference [k] decides when [d] is 0. *)
Lemma tieBreak_order (d k : Z) :
  Qle_bool (if negb (Qle_bool 0.1%Q (Qabs (inject_Z d))) then inject_Z k else inject_Z d)
           0%Q = true
  <-> d < 0 \/ (d = 0 /\ k <= 0).
Proof.
  unfold Qle_bool, Qabs, inject_Z. cbn [Qnum Qden].
  destruct (Z.leb_spec (1 * 1) (Z.abs d * 10)); cbn [negb Qnum Qden];
    rewrite Z.leb_le; lia.
Qed.

Lemma compareItems_volume (mathSin : Z -> Q) (randomSeed : Z) (a b : CargoItem) :
  Qle_bool (compareItems mathSin VOLUME randomSeed a b) 0%Q = true <-> volumeFirst a b.
Proof.
  unfold compareItems. cbv zeta. rewrite tieBreak_order. unfold volumeFirst. lia.
Qed.

Lemma compareItems_footprint (mathSin : Z -> Q) (randomSeed : Z) (a b : CargoItem) :
  Qle_bool (compareItems mathSin FOOTPRINT randomSeed a b) 0%Q = true
  <-> footprintFirst a b.
Proof.
  unfold compareItems, footprintFirst, volumeFirst, footprint. cbv zeta.
  destruct (Z.eqb_spec (length (dimensions a) * width (dimensions a))
                       (length (dimensions b) * width (dimensions b)));
    cbn [negb]; rewrite tieBreak_order; lia.
Qed.

Lemma compareItems_maxDim (mathSin : Z -> Q) (randomSeed : Z) (a b : CargoItem) :
  Qle_bool (compareItems mathSin MAX_DIM randomSeed a b) 0%Q = true <-> maxDimFirst a b.
Proof.
  unfold compareItems, maxDimFirst, volumeFirst, maxDim. cbv zeta.
  destruct (Z.eqb_spec
              (Z.max (Z.max (length (dimensions a)) (width (dimensions a)))
                     (height (dimensions a)))
              (Z.max (Z.max (length (dimensions b)) (width (dimensions b)))
                     (height (dimensions b))));
    cbn [negb]; rewrite tieBreak_order; lia.
Qed.

(** X15. The three exact strategies order the items as documented: VOLUME
    by volume, FOOTPRINT by footprint area then volume, MAX_DIM by longest
    side then volume, largest first, and among items the score leaves tied
    the taller first.  (The sort is the stable insertion of this file; the
    comparators are total preorders, on which every correct sort agrees up
    to the order of ties.) *)
Theorem sortByStrategy_sorted (mathSin : Z -> Q) (randomSeed : Z) (xs : list CargoItem) :
  StronglySorted volumeFirst (sortByStrategy mathSin VOLUME randomSeed xs) /\
  StronglySorted footprintFirst (sortByStrategy mathSin FOOTPRINT randomSeed xs) /\
  StronglySorted maxDimFirst (sortByStrategy mathSin MAX_DIM randomSeed xs).
Proof.
  split; [|split]; unfold sortByStrategy.
  - apply stableSort_sorted.
    + intros a b. apply compareItems_volume.
    + intros a b. unfold volumeFirst. lia.
    + intros a b c. unfold volumeFirst. lia.
  - apply stableSort_sorted.
    + intros a b. apply compareItems_footprint.
    + intros a b. unfold footprintFirst, volumeFirst. lia.
    + intros a b c. unfold footprintFirst, volumeFirst. lia.
  - apply stableSort_sorted.
    + intros a b. apply compareItems_maxDim.
    + intros a b. unfold maxDimFirst, volumeFirst. lia.
    + intros a b c. unfold maxDimFirst, volumeFirst. lia.
Qed.

(** * A load of one item *)

Lemma scanSpaces_single (item : CargoItem) (space : Box) :
  scanSpaces item [space] 0 initBest =
  if fitsUnrotated item space then mkBest 0 false (Some (spaceScore space))
  else if negb (length (dimensions item) =? width (dimensions item))
          && fitsRotated item space
       then mkBest 0 true (Some (spaceScore space))
       else initBest.
Proof.
  cbn [scanSpaces]. unfold considerSpace, initBest.
  destruct (fitsUnrotated item space); cbn [bestScore scoreBelow Z.of_nat];
    destruct (negb (length (dimensions item) =? width (dimensions item)));
    destruct (fitsRotated item space); cbn [andb]; try reflexivity.
  now rewrite Z.ltb_irrefl.
Qed.

Lemma packItem_first (item : CargoItem) (container : Dimensions) :
  placedItems (packItem (initialState container) item) =
  if fitsUnrotated item (containerBox container)
  then [withPlacement item (dimensions item) (0, 0, 0)]
  else if negb (length (dimensions item) =? width (dimensions item))
          && fitsRotated item (containerBox container)
       then [withPlacement item (rotatedDimensions (dimensions item)) (0, 0, 0)]
       else [withPosition item (0, -9999, 0) false].
Proof.
  unfold packItem. cbn [initialState freeSpaces placedItems].
  fold (containerBox container). rewrite scanSpaces_single.
  destruct (fitsUnrotated item (containerBox container)); [reflexivity|].
  destruct (negb (length (dimensions item) =? width (dimensions item))
            && fitsRotated item (containerBox container)); reflexivity.
Qed.

Section SingleItem.

Variable sortItems : SortStrategy -> Z -> list CargoItem -> list CargoItem.
Hypothesis sortItems_rearranges : rearranges sortItems.

(** X16. A load of one item: if the item fits the container as given,
    [autoPack] places it at the origin unrotated; if it fits only with
    length and width swapped, it is placed at the origin rotated; otherwise
    it is staged, valid, at the first shelf position behind the container
    (one row further back when it is longer than the row-width limit). *)
Theorem autoPack_single_item (item : CargoItem) (container : Dimensions) :
  (orientationFits item false (containerBox container) ->
   autoPack sortItems [item] container = [withPlacement item (dimensions item) (0, 0, 0)])
  /\
  (~ orientationFits item false (containerBox container) ->
   orientationFits item true (containerBox container) ->
   autoPack sortItems [item] container =
     [withPlacement item (rotatedDimensions (dimensions item)) (0, 0, 0)])
  /\
  (~ orientationFits item false (containerBox container) ->
   ~ orientationFits item true (containerBox container) ->
   autoPack sortItems [item] container =
     [withPosition item
        (if length (dimensions item) >? stagingWidthLimit
         then (0, 0, stagingZStart container + spacing)
         else (0, 0, stagingZStart container)) true]).
Proof.
  assert (Hout : autoPack sortItems [item] container =
                 finishPack (mkTrialResult
                               (placedItems (packItem (initialState container) item)) 0 0)
                            container).
  { destruct (autoPack_winner sortItems [item] container) as (winner & Hfirst & ->).
    apply firstGreatest_In, trialResults_In in Hfirst.
    destruct Hfirst as (strategy & randomSeed & _ & ->).
    unfold finishPack, runPackingTrial, runTrialLoop. cbn [items].
    rewrite (Permutation_length_1_inv
               (Permutation_sym (sortItems_rearranges strategy randomSeed [item]))).
    reflexivity. }
  rewrite Hout, packItem_first. unfold finishPack. cbn [items].
  pose proof (fitsUnrotated_iff item (containerBox container)) as HU.
  pose proof (fitsRotated_iff item (containerBox container)) as HR.
  destruct (fitsUnrotated item (containerBox container)).
  - split; [reflexivity|]. split; intro Hn; contradiction Hn; now apply HU.
  - split; [intro H; apply HU in H; discriminate|].
    destruct (negb (length (dimensions item) =? width (dimensions item))
              && fitsRotated item (containerBox container)).
    + split; [reflexivity|]. intros _ Hn. contradiction Hn. now apply HR.
    + split; [intros _ H; apply HR in H; discriminate|]. intros _ _.
      cbn [filter withPosition isValid negb app arrangeStaging].
      unfold arrangeStaging. cbn [stagingLoop withPosition dimensions].
      destruct (length (dimensions item) >? stagingWidthLimit) eqn:E;
        cbn [Z.add]; rewrite E; reflexivity.
Qed.

End SingleItem.

(** * Import of a manifest *)

(** X17. [getStringColor] always answers with an entry of the palette: the
    index it computes lies within the bounds of [DISTINCT_COLORS], whatever
    the string. *)
Theorem getStringColor_in_palette (str : string) :
  In (getStringColor str) DISTINCT_COLORS.
Proof.
  unfold getStringColor. cbv zeta. apply nth_In.
  change (Z.of_nat (List.length DISTINCT_COLORS)) with 20.
  change (List.length DISTINCT_COLORS) with 20%nat.
  pose proof (Z.rem_bound_pos (Z.abs (hashString str)) 20 (Z.abs_nonneg _)) as H.
  lia.
Qed.

Lemma itemsOfRow_from (stamp : nat -> nat -> string) (rowIdx : nat)
    (row : ImportedRow) :
  List.length (itemsOfRow stamp rowIdx row) = Z.to_nat (rowQuantity row) /\
  Forall (importedFrom row) (itemsOfRow stamp rowIdx row).
Proof.
  unfold itemsOfRow. split; [now rewrite length_map, length_seq|].
  apply Forall_forall. intros it Hin. apply in_map_iff in Hin.
  destruct Hin as (i & <- & _). unfold importedFrom, itemOfRow. cbn.
  repeat split. apply getStringColor_in_palette.
Qed.

Lemma createCargoGroups_groups (stamp : nat -> nat -> string)
    (rows : list ImportedRow) (s : nat) :
  Forall2 (fun row group =>
             List.length group = Z.to_nat (rowQuantity row) /\
             Forall (importedFrom row) group)
          rows
          (map (fun ir => itemsOfRow stamp (fst ir) (snd ir))
               (combine (seq s (List.length rows)) rows)).
Proof.
  revert s. induction rows as [|row rest IH]; intro s; simpl.
  - constructor.
  - constructor; [apply itemsOfRow_from | apply IH].
Qed.

Lemma length_concat_groups (rows : list ImportedRow) (groups : list (list CargoItem)) :
  Forall2 (fun row group =>
             List.length group = Z.to_nat (rowQuantity row) /\
             Forall (importedFrom row) group) rows groups ->
  List.length (List.concat groups) = totalQuantity rows.
Proof.
  induction 1 as [|row group rows' groups' [Hlen _] _ IH]; simpl.
  - reflexivity.
  - now rewrite length_app, Hlen, IH.
Qed.

(** X18. [createCargoGroups] turns each row, in order, into as many items
    as its quantity says (none for a quantity of 0 or less); every item
    carries the drawing numbers, dimensions and weight of its row, stands at
    (0,0,0), is valid and unselected, and is coloured with the palette entry
    of the row's sub drawing number, or of its main drawing number when the
    sub drawing number is blank.  The list is as long as the quantities
    add up to. *)
Theorem createCargoGroups_spec (stamp : nat -> nat -> string)
    (rows : list ImportedRow) :
  (exists groups : list (list CargoItem),
     Forall2 (fun row group =>
                List.length group = Z.to_nat (rowQuantity row) /\
                Forall (importedFrom row) group) rows groups /\
     createCargoGroups stamp rows = List.concat groups) /\
  List.length (createCargoGroups stamp rows) = totalQuantity rows.
Proof.
  assert (E : createCargoGroups stamp rows =
              List.concat (map (fun ir => itemsOfRow stamp (fst ir) (snd ir))
                               (indexed rows)))
    by apply flat_map_concat_map.
  split.
  - eexists. split; [|exact E]. apply createCargoGroups_groups.
  - rewrite E. apply length_concat_groups, createCargoGroups_groups.
Qed.

(** ** Distinct identifiers *)

Lemma uint_no_dash (d : Decimal.uint) :
  ~ In dash (list_ascii_of_string (NilEmpty.string_of_uint d)).
Proof.
  induction d; simpl; intros H; try (destruct H as [H | H]; [discriminate | auto]).
  exact H.
Qed.

Lemma split_at_dash (u u' t t' : string) :
  ~ In dash (list_ascii_of_string u) -> ~ In dash (list_ascii_of_string u') ->
  (u ++ String dash t)%string = (u' ++ String dash t')%string ->
  u = u' /\ t = t'.
Proof.
  revert u'. induction u as [|c u IH]; intros u' Hu Hu' E.
  - destruct u' as [|c' u']; simpl in E.
    + injection E as ->. auto.
    + injection E as <- _. contradiction Hu'. simpl. now left.
  - destruct u' as [|c' u']; simpl in E.
    + injection E as -> _. contradiction Hu. simpl. now left.
    + injection E as -> E.
      destruct (IH u') as [-> ->]; auto.
      * intro H. apply Hu. simpl. now right.
      * intro H. apply Hu'. simpl. now right.
Qed.

Lemma decimal_inj (n n' : nat) : decimal n = decimal n' -> n = n'.
Proof.
  unfold decimal. intro E. apply Unsigned.to_uint_inj.
  pose proof (NilEmpty.usu (Nat.to_uint n)) as H.
  rewrite E, NilEmpty.usu in H. congruence.
Qed.

Lemma itemId_inj (stamp : nat -> nat -> string) (r i r' i' : nat) :
  itemId stamp r i = itemId stamp r' i' -> r = r' /\ i = i'.
Proof.
  unfold itemId. intro E. cbn [append] in E.
  injection E as E.
  apply split_at_dash in E; try apply uint_no_dash.
  destruct E as [Er E].
  apply split_at_dash in E; try apply uint_no_dash.
  destruct E as [Ei _].
  split; now apply decimal_inj.
Qed.

Lemma createCargoGroups_ids (stamp : nat -> nat -> string)
    (rows : list ImportedRow) (s : nat) (it : CargoItem) :
  In it (flat_map (fun ir => itemsOfRow stamp (fst ir) (snd ir))
                  (combine (seq s (List.length rows)) rows)) ->
  exists r i, (s <= r)%nat /\ id it = itemId stamp r i.
Proof.
  rewrite in_flat_map. intros ([r row] & Hin & Hit). cbn [fst snd] in Hit.
  apply in_combine_l, in_seq in Hin.
  unfold itemsOfRow in Hit. apply in_map_iff in Hit. destruct Hit as (i & <- & _).
  exists r, i. split; [lia | reflexivity].
Qed.

Lemma itemsOfRow_NoDup (stamp : nat -> nat -> string) (rowIdx : nat)
    (row : ImportedRow) :
  NoDup (map id (itemsOfRow stamp rowIdx row)).
Proof.
  unfold itemsOfRow. rewrite map_map. cbn [itemOfRow id].
  apply NoDup_map_NoDup_ForallPairs; [|apply seq_NoDup].
  intros i i' _ _ E. now apply itemId_inj in E.
Qed.

Lemma createCargoGroups_ids_NoDup (stamp : nat -> nat -> string)
    (rows : list ImportedRow) (s : nat) :
  NoDup (map id (flat_map (fun ir => itemsOfRow stamp (fst ir) (snd ir))
                          (combine (seq s (List.length rows)) rows))).
Proof.
  revert s. induction rows as [|row rest IH]; intro s; simpl; [constructor|].
  rewrite map_app. apply NoDup_app.
  - apply itemsOfRow_NoDup.
  - apply IH.
  - intros idstr H1 H2.
    apply in_map_iff in H1. destruct H1 as (a & <- & Ha).
    apply in_map_iff in H2. destruct H2 as (b & Eb & Hb).
    unfold itemsOfRow in Ha. apply in_map_iff in Ha. destruct Ha as (i & <- & _).
    apply createCargoGroups_ids in Hb. destruct Hb as (r & i' & Hr & Eid).
    rewrite Eid in Eb. cbn [itemOfRow id] in Eb.
    apply itemId_inj in Eb. lia.
Qed.

(** X19. The identifiers of the items of one import are pairwise distinct,
    whatever the clock and the random generator contribute: the row index
    and the copy index at the head of an identifier determine it, so equal
    identifiers mean the same row and the same copy. *)
Theorem createCargoGroups_distinct_ids (stamp : nat -> nat -> string)
    (rows : list ImportedRow) :
  NoDup (map id (createCargoGroups stamp rows)) /\
  (forall stamp' r i r' i',
     itemId stamp r i = itemId stamp' r' i' -> r = r' /\ i = i').
Proof.
  split.
  - apply createCargoGroups_ids_NoDup.
  - intros stamp' r i r' i' E. unfold itemId in E. cbn [append] in E.
    injection E as E.
    apply split_at_dash in E; try apply uint_no_dash. destruct E as [Er E].
    apply split_at_dash in E; try apply uint_no_dash. destruct E as [Ei _].
    split; now apply decimal_inj.
Qed.

Lemma createCargoGroups_positive (stamp : nat -> nat -> string)
    (rows : list ImportedRow) :
  Forall positiveRow rows -> allPositive (createCargoGroups stamp rows).
Proof.
  intro Hrows. unfold createCargoGroups, indexed, allPositive. generalize 0%nat.
  induction Hrows as [|row rest Hrow _ IH]; intro s; simpl; [constructor|].
  apply Forall_app. split; [|apply IH].
  apply Forall_forall. intros it Hin. unfold itemsOfRow in Hin.
  apply in_map_iff in Hin. destruct Hin as (i & <- & _).
  unfold positiveRow in Hrow. unfold positiveDimensions. cbn. lia.
Qed.

Lemma map_id_of_keys (xs : list CargoItem) :
  map id xs = map (fun k => fst (fst (fst (fst (fst (fst (fst (fst (fst (fst k))))))))))
                  (map cargoKey xs).
Proof. rewrite map_map. reflexivity. Qed.

Section WholeLoad.

Variable sortItems : SortStrategy -> Z -> list CargoItem -> list CargoItem.
Hypothesis sortItems_rearranges : rearranges sortItems.

Lemma autoPack_keys (inputItems : list CargoItem) (container : Dimensions) :
  Permutation (map cargoKey (autoPack sortItems inputItems container))
              (map cargoKey inputItems).
Proof.
  destruct (autoPack_winner sortItems inputItems container) as (winner & Hfirst & ->).
  apply firstGreatest_In, trialResults_In in Hfirst.
  destruct Hfirst as (strategy & randomSeed & _ & ->).
  eapply perm_trans; [apply finishPack_keys|].
  rewrite runPackingTrial_keys. apply Permutation_map, sortItems_rearranges.
Qed.

(** X20. [optimizeLoad] on rows with positive dimensions: the returned
    list holds as many items as the quantities add up to, their identifiers
    are pairwise distinct, and no two of them are valid with boxes that
    overlap by more than epsilon. *)
Theorem optimizeLoad_spec (stamp : nat -> nat -> string)
    (rawRows : list ImportedRow) (container : Dimensions) :
  Forall positiveRow rawRows ->
  List.length (optimizeLoad sortItems stamp rawRows container) = totalQuantity rawRows /\
  NoDup (map id (optimizeLoad sortItems stamp rawRows container)) /\
  pairwiseApart validOverlap (optimizeLoad sortItems stamp rawRows container).
Proof.
  intro Hrows. unfold optimizeLoad.
  pose proof (autoPack_keys (createCargoGroups stamp rawRows) container) as Hperm.
  split; [|split].
  - apply Permutation_length in Hperm. rewrite !length_map in Hperm. rewrite Hperm.
    unfold createCargoGroups. rewrite flat_map_concat_map.
    apply length_concat_groups, createCargoGroups_groups.
  - rewrite map_id_of_keys.
    eapply Permutation_NoDup; [apply Permutation_sym, Permutation_map, Hperm|].
    rewrite <- map_id_of_keys. apply createCargoGroups_ids_NoDup.
  - apply (ordPairs_apart apartBoxes).
    + intros a b [H1 H2]. split; intros (_ & _ & Ho);
        [apply H1 | apply H2]; now apply intersect_of_overlap.
    + apply autoPack_apart; [exact sortItems_rearranges|].
      now apply createCargoGroups_positive.
Qed.

(** X21. On the result of a trial the loaded filter of the statistics
    ([position[1] >= 0 && position[0] < container.length]) keeps exactly the
    items the trial placed, for input items with positive dimensions. *)
Theorem loadedItems_of_trial (inputItems : list CargoItem) (container : Dimensions)
    (strategy : SortStrategy) (randomSeed : Z) :
  allPositive inputItems ->
  loadedItems container
    (items (runPackingTrial sortItems inputItems container strategy randomSeed)) =
  filter isValid
    (items (runPackingTrial sortItems inputItems container strategy randomSeed)).
Proof.
  intro Hpos. unfold loadedItems. apply filter_ext_in. intros o Ho.
  assert (Hkey : In (cargoKey o) (map cargoKey inputItems)).
  { pose proof (in_map cargoKey _ _ Ho) as Hk. rewrite runPackingTrial_keys in Hk.
    revert Hk. apply Permutation_in, Permutation_map, sortItems_rearranges. }
  apply in_map_iff in Hkey. destruct Hkey as (item & Ekey & Hitem).
  unfold allPositive in Hpos. rewrite Forall_forall in Hpos.
  destruct (Hpos item Hitem) as (Hl & Hw & _).
  assert (Hlen : 0 < length (dimensions o)).
  { unfold cargoKey in Ekey. injection Ekey as _ _ _ _ _ _ _ _ _ Emin _. lia. }
  unfold runPackingTrial, runTrialLoop in Ho |- *. cbn [items] in Ho |- *.
  set (st := fold_left packItem (sortItems strategy randomSeed inputItems)
                       (initialState container)) in *.
  unfold isLoaded. destruct (isValid o) eqn:Hv.
  - destruct (trialInv_loop container (sortItems strategy randomSeed inputItems)
                (initialState container) (trialInv_initial container))
      as [_ _ _ Hinside].
    rewrite Forall_forall in Hinside.
    assert (Hb : inside (containerBox container) (itemBox o)).
    { apply Hinside. unfold validBoxes. apply in_map, filter_In. auto. }
    unfold inside, containerBox, itemBox in Hb. cbn [x y z l h w] in Hb.
    apply andb_true_iff. split; [rewrite Z.geb_leb; apply Z.leb_le | apply Z.ltb_lt]; lia.
  - pose proof (trialLoop_sentinel (sortItems strategy randomSeed inputItems)
                  (initialState container) (Forall_nil _)) as Hsent.
    rewrite Forall_forall in Hsent. rewrite (Hsent o Ho Hv). reflexivity.
Qed.

End WholeLoad.

(** X22. In the staging area the same filter looks at x only: a staged item
    passes it exactly when its x is less than the container length, and for
    a container of positive length the first staged item always passes. *)
Theorem loadedItems_of_staging (xs : list CargoItem) (container : Dimensions) :
  Forall (fun o => isLoaded container o = (pos0 (position o) <? length container))
         (arrangeStaging xs container) /\
  (0 < length container ->
   Forall (fun o => isLoaded container o = true) (firstn 1 (arrangeStaging xs container))).
Proof.
  split.
  - pose proof (stagingLoop_floor xs 0 (stagingZStart container) 0) as Hy.
    fold (arrangeStaging xs container) in Hy.
    eapply Forall_impl; [|exact Hy]. intros o E. unfold isLoaded. now rewrite E.
  - intro Hl. unfold arrangeStaging. destruct xs as [|i rest]; [constructor|].
    cbn [stagingLoop firstn]. constructor; [|constructor].
    unfold isLoaded.
    destruct (0 + length (dimensions i) >? stagingWidthLimit); cbn;
      now apply Z.ltb_lt.
Qed.

(** * A validated move *)

Lemma nth_error_same_id (xs : list CargoItem) (i j : nat) (a b : CargoItem) :
  NoDup (map id xs) -> nth_error xs i = Some a -> nth_error xs j = Some b ->
  id a = id b -> i = j.
Proof.
  intros Hnd Hi Hj E.
  apply (proj1 (NoDup_nth_error (map id xs)) Hnd).
  - rewrite length_map. apply nth_error_Some. congruence.
  - rewrite !nth_error_map, Hi, Hj. cbn [option_map]. now rewrite E.
Qed.

(** X23. A move that passed the collision test keeps the load free of
    overlaps: if the identifiers are pairwise distinct, no two items overlap
    by more than epsilon, and [checkCollisionWithCoords] is false for the
    item [moved] at position [pos] against the whole list, then after
    [onUpdateItem] has put [moved] at [pos] still no two items overlap by
    more than epsilon, and [pos] has no negative coordinate. *)
Theorem onUpdateItem_keeps_apart (prev : list CargoItem) (moved : CargoItem)
    (pos : Z * Z * Z) (container : Dimensions) :
  NoDup (map id prev) ->
  In moved prev ->
  pairwiseApart boxesOverlap prev ->
  checkCollisionWithCoords (itemBox (withPosition moved pos (isValid moved))) (id moved)
                           prev container = false ->
  pairwiseApart boxesOverlap (onUpdateItem (id moved) pos prev) /\
  0 <= pos0 pos /\ 0 <= pos1 pos /\ 0 <= pos2 pos.
Proof.
  intros Hnd Hmoved Hprev Hcheck.
  unfold checkCollisionWithCoords in Hcheck. cbn [itemBox withPosition position x y z] in Hcheck.
  destruct ((pos0 pos <? 0) || (pos1 pos <? 0) || (pos2 pos <? 0)) eqn:Hneg;
    [discriminate|].
  apply orb_false_iff in Hneg. destruct Hneg as [Hneg Hz].
  apply orb_false_iff in Hneg. destruct Hneg as [Hx Hy].
  apply Z.ltb_ge in Hx, Hy, Hz. split; [|auto].
  assert (Hfree : forall other, In other prev -> id other <> id moved ->
            ~ overlapsBeyond epsilon (itemBox (withPosition moved pos (isValid moved)))
                             (itemBox other)).
  { intros other Hin Hid Hov.
    assert (collisionLoop (itemBox (withPosition moved pos (isValid moved)))
                          (id moved) prev = true) as Htrue.
    { apply collisionLoop_iff. exists other. auto. }
    congruence. }
  assert (Hsame : forall a, In a prev -> id a = id moved -> a = moved).
  { intros a Ha E.
    destruct (In_nth_error _ _ Ha) as (i & Hi).
    destruct (In_nth_error _ _ Hmoved) as (j & Hj).
    assert (i = j) by (eapply nth_error_same_id; eauto). subst. congruence. }
  intros i j a' b' Hne Hi Hj. unfold onUpdateItem in Hi, Hj.
  rewrite nth_error_map in Hi, Hj.
  destruct (nth_error prev i) as [a|] eqn:Ea; [|discriminate].
  destruct (nth_error prev j) as [b|] eqn:Eb; [|discriminate].
  cbn [option_map] in Hi, Hj. injection Hi as <-. injection Hj as <-.
  pose proof (nth_error_In _ _ Ea) as Ha. pose proof (nth_error_In _ _ Eb) as Hb.
  destruct (String.eqb_spec (id a) (id moved)) as [Eida | Nida];
    destruct (String.eqb_spec (id b) (id moved)) as [Eidb | Nidb].
  - exfalso. apply Hne. eapply nth_error_same_id; eauto. congruence.
  - rewrite (Hsame a Ha Eida). now apply Hfree.
  - rewrite (Hsame b Hb Eidb). intro Hov. apply overlapsBeyond_sym in Hov.
    revert Hov. now apply Hfree.
  - now apply (Hprev i j).
Qed.

(** * Packed volume against the volume of the container *)

Lemma sumTo_ext (n : nat) (f g : Z -> Z) :
  (forall p, 0 <= p < Z.of_nat n -> f p = g p) -> sumTo n f = sumTo n g.
Proof.
  induction n as [|k IH]; intro H; simpl; [reflexivity|].
  rewrite IH, (H (Z.of_nat k)); [reflexivity | lia |].
  intros p Hp. apply H. lia.
Qed.

Lemma sumTo_le (n : nat) (f g : Z -> Z) :
  (forall p, 0 <= p < Z.of_nat n -> f p <= g p) -> sumTo n f <= sumTo n g.
Proof.
  induction n as [|k IH]; intro H; simpl; [lia|].
  assert (sumTo k f <= sumTo k g) by (apply IH; intros p Hp; apply H; lia).
  assert (f (Z.of_nat k) <= g (Z.of_nat k)) by (apply H; lia). lia.
Qed.

Lemma sumTo_plus (n : nat) (f g : Z -> Z) :
  sumTo n (fun p => f p + g p) = sumTo n f + sumTo n g.
Proof. induction n as [|k IH]; simpl; [reflexivity|]. rewrite IH. lia. Qed.

Lemma sumTo_scale (n : nat) (c : Z) (f : Z -> Z) :
  sumTo n (fun p => f p * c) = sumTo n f * c.
Proof. induction n as [|k IH]; simpl; [reflexivity|]. rewrite IH. lia. Qed.

Lemma sumTo_zero (n : nat) : sumTo n (fun _ => 0) = 0.
Proof. induction n as [|k IH]; simpl; [reflexivity|]. rewrite IH. lia. Qed.

Lemma sumTo_one (n : nat) : sumTo n (fun _ => 1) = Z.of_nat n.
Proof. induction n as [|k IH]; simpl; [reflexivity|]. rewrite IH. lia. Qed.

Lemma sumTo_inRange (n : nat) (lo len : Z) :
  0 <= lo -> 0 <= len ->
  sumTo n (inRange lo len) = Z.max 0 (Z.min (lo + len) (Z.of_nat n) - lo).
Proof.
  intros Hlo Hlen. induction n as [|k IH]; simpl sumTo.
  - lia.
  - rewrite IH. unfold inRange.
    destruct (Z.leb_spec lo (Z.of_nat k)), (Z.ltb_spec (Z.of_nat k) (lo + len));
      cbn [andb]; lia.
Qed.

Lemma sumTo_inRange_inside (n : Z) (lo len : Z) :
  0 <= lo -> 0 <= len -> lo + len <= n ->
  sumTo (Z.to_nat n) (inRange lo len) = len.
Proof. intros. rewrite sumTo_inRange by assumption. lia. Qed.

(** The cells of a box inside the container number its volume. *)
Lemma sumCells_box (container : Dimensions) (b : Box) :
  inside (containerBox container) b -> nonNegativeExtents b ->
  sumCells container (cellOf b) = boxVolume b.
Proof.
  unfold inside, containerBox, nonNegativeExtents. cbn [x y z l h w].
  intros (Hx & Hy & Hz & Hx' & Hy' & Hz') (Hl & Hh & Hw).
  unfold sumCells, cellOf, boxVolume.
  rewrite (sumTo_ext (Z.to_nat (length container)) _
             (fun px => inRange (x b) (l b) px * (h b * w b))).
  - rewrite sumTo_scale, sumTo_inRange_inside by lia. ring.
  - intros px _.
    rewrite (sumTo_ext (Z.to_nat (height container)) _
               (fun py => inRange (y b) (h b) py * (inRange (x b) (l b) px * w b))).
    + rewrite sumTo_scale, sumTo_inRange_inside by lia. ring.
    + intros py _.
      rewrite (sumTo_ext (Z.to_nat (width container)) _
                 (fun pz => inRange (z b) (w b) pz *
                            (inRange (x b) (l b) px * inRange (y b) (h b) py)))
        by (intros; ring).
      rewrite sumTo_scale, sumTo_inRange_inside by lia. ring.
Qed.

Lemma sumCells_plus (container : Dimensions) (f g : Z -> Z -> Z -> Z) :
  sumCells container (fun px py pz => f px py pz + g px py pz) =
  sumCells container f + sumCells container g.
Proof.
  unfold sumCells. rewrite <- sumTo_plus. apply sumTo_ext. intros px _.
  rewrite <- sumTo_plus. apply sumTo_ext. intros py _.
  now rewrite <- sumTo_plus.
Qed.

Lemma sumCells_le (container : Dimensions) (f g : Z -> Z -> Z -> Z) :
  (forall px py pz, f px py pz <= g px py pz) ->
  sumCells container f <= sumCells container g.
Proof.
  intro H. unfold sumCells.
  apply sumTo_le. intros px _. apply sumTo_le. intros py _.
  apply sumTo_le. intros pz _. apply H.
Qed.

Lemma sumCells_one (container : Dimensions) :
  positiveDimensions container ->
  sumCells container (fun _ _ _ => 1) = volume container.
Proof.
  intros (Hl & Hw & Hh). unfold sumCells, volume.
  rewrite (sumTo_ext (Z.to_nat (length container)) _
             (fun _ => 1 * (height container * width container))).
  - rewrite sumTo_scale, sumTo_one. rewrite Z2Nat.id by lia. ring.
  - intros px _.
    rewrite (sumTo_ext (Z.to_nat (height container)) _ (fun _ => 1 * width container)).
    + rewrite sumTo_scale, sumTo_one. rewrite Z2Nat.id by lia. ring.
    + intros py _. rewrite sumTo_one. rewrite Z2Nat.id by lia. ring.
Qed.

Lemma sumCells_boxes (container : Dimensions) (boxes : list Box) :
  Forall (inside (containerBox container)) boxes ->
  Forall nonNegativeExtents boxes ->
  sumCells container (cellsOf boxes) = fold_right (fun b acc => boxVolume b + acc) 0 boxes.
Proof.
  induction boxes as [|b rest IH]; intros Hin Hnn.
  - unfold sumCells, cellsOf. cbn [fold_right].
    rewrite (sumTo_ext _ _ (fun _ => 0)); [apply sumTo_zero|].
    intros px _. rewrite (sumTo_ext _ _ (fun _ => 0)); [apply sumTo_zero|].
    intros py _. apply sumTo_zero.
  - inversion Hin; inversion Hnn; subst.
    cbn [fold_right]. rewrite <- IH, <- (sumCells_box container b) by assumption.
    apply sumCells_plus.
Qed.

Lemma cellOf_bounds (b : Box) (px py pz : Z) : 0 <= cellOf b px py pz <= 1.
Proof.
  unfold cellOf, inRange.
  destruct ((x b <=? px) && (px <? x b + l b)),
           ((y b <=? py) && (py <? y b + h b)),
           ((z b <=? pz) && (pz <? z b + w b)); lia.
Qed.

Lemma cellOf_shared (a b : Box) (px py pz : Z) :
  cellOf a px py pz = 1 -> cellOf b px py pz = 1 -> intersects a b.
Proof.
  unfold cellOf, inRange, intersects.
  destruct ((x a <=? px) && (px <? x a + l a)) eqn:E1; [|lia].
  destruct ((y a <=? py) && (py <? y a + h a)) eqn:E2; [|lia].
  destruct ((z a <=? pz) && (pz <? z a + w a)) eqn:E3; [|lia].
  destruct ((x b <=? px) && (px <? x b + l b)) eqn:E4; [|lia].
  destruct ((y b <=? py) && (py <? y b + h b)) eqn:E5; [|lia].
  destruct ((z b <=? pz) && (pz <? z b + w b)) eqn:E6; [|lia].
  intros _ _. bool_to_prop. lia.
Qed.

(** A cell lies in at most one of pairwise disjoint boxes. *)
Lemma cellsOf_disjoint (boxes : list Box) (px py pz : Z) :
  ForallOrdPairs disjointBoxes boxes -> 0 <= cellsOf boxes px py pz <= 1.
Proof.
  induction 1 as [|b rest Hall _ IH]; unfold cellsOf in *; cbn [fold_right]; [lia|].
  pose proof (cellOf_bounds b px py pz) as Hb.
  assert (Hzero : cellOf b px py pz = 1 ->
                  fold_right (fun c acc => cellOf c px py pz + acc) 0 rest = 0).
  { intro E. clear IH. induction rest as [|c rest' IHr]; cbn [fold_right]; [reflexivity|].
    inversion Hall as [|? ? Hbc Hrest]; subst.
    rewrite (IHr Hrest).
    pose proof (cellOf_bounds c px py pz).
    assert (cellOf c px py pz <> 1).
    { intro Ec. apply Hbc. now apply (cellOf_shared b c px py pz). }
    lia. }
  lia.
Qed.

Lemma trialLoop_positive (xs : list CargoItem) (st : TrialState) :
  allPositive xs -> allPositive (placedItems st) ->
  allPositive (placedItems (fold_left packItem xs st)).
Proof.
  revert st. induction xs as [|item rest IH]; intros st Hpos Hst; simpl; [exact Hst|].
  inversion Hpos as [|? ? (Hl & Hw & Hh) Hrest]; subst.
  apply IH; [exact Hrest|].
  destruct (packItem_appends st item) as (o & -> & Hkey & _).
  apply Forall_app. split; [exact Hst|]. constructor; [|constructor].
  unfold cargoKey in Hkey. injection Hkey as _ _ _ _ _ _ _ _ Eh Emin _.
  unfold positiveDimensions. lia.
Qed.

Lemma sumVolumes_boxes (xs : list CargoItem) :
  sumVolumes xs = fold_right (fun b acc => boxVolume b + acc) 0 (map itemBox xs).
Proof.
  induction xs as [|i rest IH]; simpl; [reflexivity|].
  unfold sumVolumes in *. cbn [fold_right]. rewrite IH.
  unfold boxVolume, volume, itemBox. cbn [l h w]. lia.
Qed.

Section PackedVolume.

Variable sortItems : SortStrategy -> Z -> list CargoItem -> list CargoItem.
Hypothesis sortItems_rearranges : rearranges sortItems.

(** X24. A trial never packs more than the container holds: for items and
    a container with positive dimensions, the packed volume it reports is at
    least 0 and at most the volume of the container. *)
Theorem packedVolume_within_container (inputItems : list CargoItem)
    (container : Dimensions) (strategy : SortStrategy) (randomSeed : Z) :
  allPositive inputItems -> positiveDimensions container ->
  0 <= packedVolume (runPackingTrial sortItems inputItems container strategy randomSeed)
    <= volume container.
Proof.
  intros Hpos Hc. unfold runPackingTrial, runTrialLoop. cbn [packedVolume].
  set (st := fold_left packItem (sortItems strategy randomSeed inputItems)
                       (initialState container)).
  assert (Hvol : totalPackedVol st = sumVolumes (filter isValid (placedItems st)))
    by (apply trialLoop_volume; reflexivity).
  assert (Hinv : TrialInv container st) by (apply trialInv_loop, trialInv_initial).
  assert (Hplaced : allPositive (placedItems st)).
  { apply trialLoop_positive; [|constructor].
    unfold allPositive. now rewrite (sortItems_rearranges strategy randomSeed inputItems). }
  destruct Hinv as [_ _ Hdisj Hinside].
  assert (Hnn : Forall nonNegativeExtents (validBoxes st)).
  { unfold validBoxes. apply Forall_forall. intros b Hb. apply in_map_iff in Hb.
    destruct Hb as (o & <- & Ho). apply filter_In in Ho. destruct Ho as [Ho _].
    unfold allPositive in Hplaced. rewrite Forall_forall in Hplaced.
    destruct (Hplaced o Ho) as (? & ? & ?).
    unfold nonNegativeExtents, itemBox. cbn [l h w]. lia. }
  rewrite Hvol, sumVolumes_boxes. fold (validBoxes st).
  rewrite <- (sumCells_boxes container) by assumption.
  rewrite <- (sumCells_one container Hc). split.
  - assert (H0 : sumCells container (fun _ _ _ => 0) = 0)
      by exact (sumCells_boxes container [] (Forall_nil _) (Forall_nil _)).
    rewrite <- H0. apply sumCells_le. intros px py pz.
    now apply cellsOf_disjoint.
  - apply sumCells_le. intros px py pz. now apply cellsOf_disjoint.
Qed.

End PackedVolume.

(** X25. Every item [autoPack] returns is flagged valid, the ones it could
    not place included: a returned item either lies in the container or
    stands on the floor of the staging area, at least 1500 behind the far
    z-face. *)
Theorem autoPack_all_valid
    (sortItems : SortStrategy -> Z -> list CargoItem -> list CargoItem)
    (inputItems : list CargoItem) (container : Dimensions) :
  Forall (fun o => isValid o = true /\
                   (withinContainer container (itemBox o) \/
                    (pos1 (position o) = 0 /\
                     width container + 1500 <= pos2 (position o))))
         (autoPack sortItems inputItems container).
Proof.
  destruct (autoPack_winner sortItems inputItems container) as (winner & Hfirst & ->).
  apply firstGreatest_In, trialResults_In in Hfirst.
  destruct Hfirst as (strategy & randomSeed & _ & ->).
  unfold finishPack, runPackingTrial, runTrialLoop. cbn [items].
  set (st := fold_left packItem (sortItems strategy randomSeed inputItems)
                       (initialState container)).
  destruct (trialInv_loop container (sortItems strategy randomSeed inputItems)
              (initialState container) (trialInv_initial container))
    as [_ _ _ Hinside].
  fold st in Hinside. rewrite Forall_forall in Hinside.
  apply Forall_app. split; apply Forall_forall; intros o Ho.
  - pose proof Ho as Hv. apply filter_In in Hv. destruct Hv as [_ Hv].
    split; [exact Hv|]. left. apply withinContainer_inside, Hinside.
    unfold validBoxes. now apply in_map.
  - set (failed := filter (fun i => negb (isValid i)) (placedItems st)) in *.
    pose proof (stagingLoop_map failed 0 (stagingZStart container) 0) as Hmap.
    fold (arrangeStaging failed container) in Hmap.
    assert (Hall : Forall (fun o => isValid o = true /\ pos1 (position o) = 0)
                          (arrangeStaging failed container)).
    { clear Ho. induction Hmap as [|i o' ? ? [E1 E2] _ IH]; constructor; [|exact IH].
      split; [rewrite E1; reflexivity | exact E2]. }
    rewrite Forall_forall in Hall. destruct (Hall o Ho) as [Hv Hy].
    split; [exact Hv|]. right. split; [exact Hy|].
    now apply (arrangeStaging_depth failed).
Qed.

(** * The further properties at work on concrete loads *)

Lemma splitSpace_covers_witness :
  exists f, In f (splitSpace (mkBox 0 0 0 600 600 600) (mkBox 0 0 0 1000 1000 1000)) /\
            pointIn 700 0 0 f.
Proof.
  apply splitSpace_covers; unfold intersects, pointIn; cbn [x y z l h w]; lia.
Defined.

Lemma getSnappingPosition_disabled_witness :
  getSnappingPosition (152, 0, 0) (mkDimensions 150 150 100)
    [sampleItem "neighbour" 150 150 100 (0, 0, 0)] "moved" 0 = (152, 0, 0).
Proof. apply getSnappingPosition_disabled. lia. Defined.

Lemma autoPack_passes_checkCollision_witness :
  rearranges (sortByStrategy zeroNoise) /\ allPositive threeCubes /\
  positiveDimensions cube1000 /\
  Forall (fun a => checkCollision a (autoPack (sortByStrategy zeroNoise) threeCubes cube1000)
                     cube1000 = false)
         (autoPack (sortByStrategy zeroNoise) threeCubes cube1000).
Proof.
  split; [exact (sortByStrategy_rearranges zeroNoise)|].
  split; [exact threeCubes_positive|]. split; [exact cube1000_positive|].
  exact (autoPack_passes_checkCollision (sortByStrategy zeroNoise)
           (sortByStrategy_rearranges zeroNoise) threeCubes cube1000
           threeCubes_positive cube1000_positive).
Defined.

Lemma autoPack_single_item_witness :
  rearranges (sortByStrategy zeroNoise) /\
  autoPack (sortByStrategy zeroNoise) [sampleItem "cube" 600 600 600 (0, 0, 2500)] cube1000
    = [withPlacement (sampleItem "cube" 600 600 600 (0, 0, 2500))
         (mkDimensions 600 600 600) (0, 0, 0)].
Proof.
  split; [exact (sortByStrategy_rearranges zeroNoise)|].
  apply (proj1 (autoPack_single_item (sortByStrategy zeroNoise)
                  (sortByStrategy_rearranges zeroNoise)
                  (sampleItem "cube" 600 600 600 (0, 0, 2500)) cube1000)).
  unfold orientationFits. cbn. lia.
Defined.

Lemma sampleRows_positive : Forall positiveRow sampleRows.
Proof. repeat constructor. Qed.

Lemma optimizeLoad_spec_witness :
  rearranges (sortByStrategy zeroNoise) /\ Forall positiveRow sampleRows /\
  List.length (optimizeLoad (sortByStrategy zeroNoise) sampleStamp sampleRows cube1000)
    = 3%nat.
Proof.
  split; [exact (sortByStrategy_rearranges zeroNoise)|].
  split; [exact sampleRows_positive|].
  exact (proj1 (optimizeLoad_spec (sortByStrategy zeroNoise)
                  (sortByStrategy_rearranges zeroNoise) sampleStamp sampleRows cube1000
                  sampleRows_positive)).
Defined.

Lemma loadedItems_of_trial_witness :
  rearranges (sortByStrategy zeroNoise) /\ allPositive threeCubes /\
  loadedItems cube1000
    (items (runPackingTrial (sortByStrategy zeroNoise) threeCubes cube1000 VOLUME 0)) =
  filter isValid
    (items (runPackingTrial (sortByStrategy zeroNoise) threeCubes cube1000 VOLUME 0)).
Proof.
  split; [exact (sortByStrategy_rearranges zeroNoise)|].
  split; [exact threeCubes_positive|].
  exact (loadedItems_of_trial (sortByStrategy zeroNoise)
           (sortByStrategy_rearranges zeroNoise) threeCubes cube1000 VOLUME 0
           threeCubes_positive).
Defined.

Lemma packedVolume_within_container_witness :
  rearranges (sortByStrategy zeroNoise) /\ allPositive threeCubes /\
  positiveDimensions cube1000 /\
  0 <= packedVolume (runPackingTrial (sortByStrategy zeroNoise) threeCubes cube1000
                       FOOTPRINT 0)
    <= volume cube1000.
Proof.
  split; [exact (sortByStrategy_rearranges zeroNoise)|].
  split; [exact threeCubes_positive|]. split; [exact cube1000_positive|].
  exact (packedVolume_within_container (sortByStrategy zeroNoise)
           (sortByStrategy_rearranges zeroNoise) threeCubes cube1000 FOOTPRINT 0
           threeCubes_positive cube1000_positive).
Defined.

Lemma twoCubes_apart : pairwiseApart boxesOverlap twoCubes.
Proof.
  apply (ordPairs_apart apartBoxes).
  - intros a b [H1 H2]. split; intro Ho; [apply H1 | apply H2];
      now apply intersect_of_overlap.
  - unfold twoCubes. repeat constructor;
      unfold boxesIntersect, intersects; cbn; lia.
Qed.

Lemma twoCubes_distinct : NoDup (map id twoCubes).
Proof.
  cbn. constructor; [|constructor; [intros [] | constructor]].
  intros [E | []]. discriminate E.
Qed.

(** The staged cube is moved flush against the front face of the cube on
    the floor. *)
Lemma onUpdateItem_keeps_apart_witness :
  checkCollisionWithCoords
    (itemBox (withPosition (sampleItem "cube-b" 600 600 600 (0, 0, 2500)) (0, 0, 600) true))
    "cube-b" twoCubes cube1000 = false /\
  pairwiseApart boxesOverlap (onUpdateItem "cube-b" (0, 0, 600) twoCubes).
Proof.
  split; [reflexivity|].
  refine (proj1 (onUpdateItem_keeps_apart twoCubes
                   (sampleItem "cube-b" 600 600 600 (0, 0, 2500)) (0, 0, 600) cube1000
                   twoCubes_distinct _ twoCubes_apart _)).
  - right. left. reflexivity.
  - reflexivity.
Defined.

(** The import at work: the second row has a blank sub drawing number and
    is coloured by its main drawing number. *)
Example import_sample :
  map (fun i => (id i, color i)) (createCargoGroups sampleStamp sampleRows) =
  [ ("item-0-0-1767225600000-k3x9q"%string, getStringColor "BOLT-SET-X");
    ("item-0-1-1767225600000-k3x9q"%string, getStringColor "BOLT-SET-X");
    ("item-1-0-1767225600000-k3x9q"%string, getStringColor "7.997.70.780.0") ] /\
  getStringColor "" = "#ef4444"%string.
Proof. split; reflexivity. Qed.
